(** * LogMaster: a shallow embedding of the gameplay engine

    Sources embedded here:
    - [src/src/components/RetroGameCanvas.tsx]: the Phaser [GameScene]
      ([chopAtPosition], [update], [updateUI], [resetGame]);
    - [src/src/lib/game-manager.ts]: the [GameManager] class ([chopLog],
      [updateAchievementProgress], [resetCombo], [saveState]);
    - [src/convex/gameSessions.ts]: the [updateGameSession] mutation;
    - the [useConvexGame] hook ([checkAndUnlockAchievements]).

    JavaScript numbers are modelled as [Z]: scores, combos, hit counts and
    millisecond timestamps are integers in the game.  The one number the
    source divides without rounding, the vertical position of a falling
    log ([log.y += (log.fallSpeed * delta) / 1000]), is a rational [Q]. *)

From Stdlib Require Import ZArith List String Bool Lia QArith_base Sorted Permutation.
Import ListNotations.
Open Scope Z_scope.

(** [a < b] on numbers modelled as rationals. *)
Definition Qltb (a b : Q) : bool := negb (Qle_bool b a).

(** Generic list helpers: [Array.prototype.splice(i, 1)] and assignment
    through an index into an array of (mutable) objects. *)
Definition remove_at {A} (i : nat) (l : list A) : list A :=
  firstn i l ++ skipn (S i) l.

Definition replace_at {A} (i : nat) (a : A) (l : list A) : list A :=
  firstn i l ++ a :: skipn (S i) l.

(* ================================================================= *)
(** ** The Phaser scene of [RetroGameCanvas.tsx] *)

Module Canvas.

(** [logType] is a string in the source; [spawnLog] only produces these
    four values. *)
Inductive LogType := normal | error | golden | hardwood.

Definition is_error (t : LogType) : bool :=
  match t with error => true | _ => false end.

(** [LogObject]: a Phaser rectangle (origin 0.5, so centred on [x], [y])
    extended with the game fields. *)
Record LogObject := mkLog {
  logType : LogType;
  hitsRemaining : Z;
  points : Z;
  fallSpeed : Z;
  x : Z;
  y : Q;
  width : Z;
  height : Z
}.

(** [Phaser.Geom.Rectangle.Contains(log.getBounds(), px, py)]: the bounds
    are [(x - width/2, y - height/2, width, height)]; [Contains] is false
    for an empty rectangle and inclusive on every edge.  Coordinates are
    doubled to avoid the halves. *)
Definition contains (l : LogObject) (px py : Z) : bool :=
  (0 <? width l) && (0 <? height l) &&
  (2 * x l - width l <=? 2 * px) && (2 * px <=? 2 * x l + width l) &&
  Qle_bool (Qmult (inject_Z 2) (y l) - inject_Z (height l)) (inject_Z (2 * py)) &&
  Qle_bool (inject_Z (2 * py)) (Qmult (inject_Z 2) (y l) + inject_Z (height l)).

Definition with_hits (l : LogObject) (h : Z) : LogObject :=
  mkLog (logType l) h (points l) (fallSpeed l) (x l) (y l) (width l) (height l).

Definition with_y (l : LogObject) (ny : Q) : LogObject :=
  mkLog (logType l) (hitsRemaining l) (points l) (fallSpeed l) (x l) ny (width l) (height l).

(** The private fields of [GameScene] that the engine logic reads or
    writes. *)
Record Scene := mkScene {
  score : Z;
  combo : Z;
  level : Z;
  gameTime : Z;
  logs : list LogObject;
  logSpawnTimer : Z;
  logSpawnRate : Z;
  gameStartTime : Z;
  totalPausedTime : Z;
  pauseStartTime : Z;
  isGameActive : bool
}.

(** The React state [gameStats] that [chopAtPosition] updates through
    [setGameStats(prev => ...)]. *)
Record GameStats := mkStats {
  chopsCount : Z;
  maxCombo : Z
}.

Definition set_score_combo (s : Scene) (sc cb : Z) : Scene :=
  mkScene sc cb (level s) (gameTime s) (logs s) (logSpawnTimer s)
    (logSpawnRate s) (gameStartTime s) (totalPausedTime s)
    (pauseStartTime s) (isGameActive s).

Definition set_logs (s : Scene) (ls : list LogObject) : Scene :=
  mkScene (score s) (combo s) (level s) (gameTime s) ls (logSpawnTimer s)
    (logSpawnRate s) (gameStartTime s) (totalPausedTime s)
    (pauseStartTime s) (isGameActive s).

Definition set_pause (s : Scene) (tp ps : Z) : Scene :=
  mkScene (score s) (combo s) (level s) (gameTime s) (logs s) (logSpawnTimer s)
    (logSpawnRate s) (gameStartTime s) tp ps (isGameActive s).

(** The multiplier of a non-error destroy:
    [Math.max(1, Math.floor(this.combo / 5) + 1)], evaluated after
    [this.combo++]. *)
Definition multiplier (c : Z) : Z := Z.max 1 (c / 5 + 1).

(** [for (let i = this.logs.length - 1; i >= 0; i--) if (Contains(...)) ...
    break;]: the index of the log the click lands on, scanning from the
    end of the array. [scan_from ls i] scans indices [i-1] down to [0]. *)
Fixpoint scan_from (ls : list LogObject) (i : nat) (px py : Z) : option nat :=
  match i with
  | O => None
  | S j =>
      match nth_error ls j with
      | Some l => if contains l px py then Some j else scan_from ls j px py
      | None => scan_from ls j px py
      end
  end.

Definition find_hit (ls : list LogObject) (px py : Z) : option nat :=
  scan_from ls (List.length ls) px py.

(** The body of the loop once log [l] at index [j] is hit:
    [log.hitsRemaining--], then destroy (scoring, stats, splice) or damage. *)
Definition hit_log (j : nat) (l : LogObject) (s : Scene) (st : GameStats)
    : Scene * GameStats :=
  let l' := with_hits l (hitsRemaining l - 1) in
  if hitsRemaining l' <=? 0 then
    let '(cb, sc) :=
      if is_error (logType l)
      then (0, Z.max 0 (score s + points l))
      else (combo s + 1, score s + points l * multiplier (combo s + 1)) in
    let s1 := set_score_combo s sc cb in
    (set_logs s1 (remove_at j (logs s)),
     mkStats (chopsCount st + 1) (Z.max (maxCombo st) cb))
  else
    (set_logs s (replace_at j l' (logs s)), st).

(** [chopAtPosition(x, y)]; [isPaused] is the React flag the scene reads. *)
Definition chopAtPosition (isPaused : bool) (px py : Z) (s : Scene)
    (st : GameStats) : Scene * GameStats :=
  if isPaused then (s, st)
  else
    match find_hit (logs s) px py with
    | Some j =>
        match nth_error (logs s) j with
        | Some l => hit_log j l s st
        | None => (s, st)
        end
    | None => (set_score_combo s (score s) 0, st)
    end.

(** The elapsed game time computed in [updateUI] ([totalElapsedTime]),
    [None] when the timer is not shown ([gameActive] false or the start time
    unset).  [now] is [this.time.now]. *)
Definition elapsedActiveMs (gameActive isPaused : bool) (now : Z) (s : Scene)
    : option Z :=
  if gameActive && (0 <? gameStartTime s) then
    if isPaused && (0 <? pauseStartTime s)
    then Some (pauseStartTime s - gameStartTime s - totalPausedTime s)
    else Some (now - gameStartTime s - totalPausedTime s)
  else None.

(** The seconds shown by [updateUI]:
    [Math.max(0, Math.floor(totalElapsedTime / 1000))], else [0]. *)
Definition gameTimeSeconds (gameActive isPaused : bool) (now : Z) (s : Scene)
    : Z :=
  match elapsedActiveMs gameActive isPaused now s with
  | Some t => Z.max 0 (t / 1000)
  | None => 0
  end.

(** The pause bookkeeping at the top of [update]. *)
Definition update_pause (isPaused : bool) (now : Z) (s : Scene) : Scene :=
  if isPaused && (pauseStartTime s =? 0) then
    set_pause s (totalPausedTime s) now
  else if negb isPaused && (0 <? pauseStartTime s) then
    set_pause s (totalPausedTime s + (now - pauseStartTime s)) 0
  else s.

(** The body of the fall loop of [update], for index [j]:
    [log.y += (log.fallSpeed * delta) / 1000]; a log below
    [cameras.main.height + 50] is removed and resets the combo. *)
Fixpoint fall_loop (delta screenH : Z) (i : nat) (cb : Z)
    (ls : list LogObject) : Z * list LogObject :=
  match i with
  | O => (cb, ls)
  | S j =>
      match nth_error ls j with
      | Some l =>
          let l' := with_y l (y l + inject_Z (fallSpeed l * delta) / inject_Z 1000) in
          if Qltb (inject_Z (screenH + 50)) (y l')
          then fall_loop delta screenH j 0 (remove_at j ls)
          else fall_loop delta screenH j cb (replace_at j l' ls)
      | None => fall_loop delta screenH j cb ls
      end
  end.

(** The game logic of [update] once not paused: game time, level and spawn
    rate, spawning ([spawned] is the log [spawnLog] draws at random), and
    the fall loop. *)
Definition update_running (delta screenH : Z) (spawned : LogObject)
    (s : Scene) : Scene :=
  let gt := gameTime s + delta in
  let newLevel := gt / 30000 + 1 in
  let '(lv, rate) :=
    if level s <? newLevel
    then (newLevel, Z.max 500 (2000 - newLevel * 100))
    else (level s, logSpawnRate s) in
  let timer := logSpawnTimer s + delta in
  let '(timer', ls) :=
    if rate <? timer then (0, logs s ++ [spawned])
    else (timer, logs s) in
  let '(cb, ls') := fall_loop delta screenH (List.length ls) (combo s) ls in
  mkScene (score s) cb lv gt ls' timer' rate (gameStartTime s)
    (totalPausedTime s) (pauseStartTime s) (isGameActive s).

(** [update(time, delta)]. *)
Definition update (isPaused : bool) (now delta screenH : Z)
    (spawned : LogObject) (s : Scene) : Scene :=
  let s1 := update_pause isPaused now s in
  if isPaused then s1 else update_running delta screenH spawned s1.

(** The field initialisers of [GameScene] (with [create]'s timer reset). *)
Definition initialScene : Scene :=
  mkScene 0 0 1 0 [] 0 2000 0 0 0 false.

(** [startGameTimer()]. *)
Definition startGameTimer (now : Z) (s : Scene) : Scene :=
  mkScene (score s) (combo s) (level s) (gameTime s) (logs s)
    (logSpawnTimer s) (logSpawnRate s) now 0 0 true.

(** [resetGame()]. *)
Definition resetGame (now : Z) (s : Scene) : Scene :=
  mkScene 0 0 1 0 [] 0 2000 now 0 0 (isGameActive s).

(** The events the scene receives: a frame of the game loop, or a click. *)
Inductive Event :=
  | Tick (isPaused : bool) (now delta screenH : Z) (spawned : LogObject)
  | Click (isPaused : bool) (px py : Z).

Definition step (e : Event) (w : Scene * GameStats) : Scene * GameStats :=
  match e with
  | Tick p now d h sp => (update p now d h sp (fst w), snd w)
  | Click p px py => chopAtPosition p px py (fst w) (snd w)
  end.

Fixpoint run (es : list Event) (w : Scene * GameStats) : Scene * GameStats :=
  match es with
  | [] => w
  | e :: es' => run es' (step e w)
  end.

Definition tick_delta_ok (e : Event) : Prop :=
  match e with Tick _ _ d _ _ => 0 <= d | Click _ _ _ => True end.

(** Clicks do not touch the timer; a frame with [isPaused] false, resp.
    true. *)
Definition running_event (e : Event) : Prop :=
  match e with Tick p _ _ _ _ => p = false | Click _ _ _ => True end.

Definition paused_event (e : Event) : Prop :=
  match e with Tick p _ _ _ _ => p = true | Click _ _ _ => True end.

(** Concrete scenes for the examples below. *)
Definition plain_log (hits pts cx cy : Z) : LogObject :=
  mkLog normal hits pts 100 cx (inject_Z cy) 60 40.

Definition error_log (cx cy : Z) : LogObject :=
  mkLog error 1 (-100) 100 cx (inject_Z cy) 80 50.

Definition scene_with (sc cb : Z) (ls : list LogObject) : Scene :=
  mkScene sc cb 1 0 ls 0 2000 0 0 0 true.

Definition no_stats : GameStats := mkStats 0 0.

End Canvas.

(* ================================================================= *)
(** ** The [GameManager] of [src/src/lib/game-manager.ts] *)

Module Manager.

Inductive LogKind := regular | hardwood | golden | mystic.
Inductive LogSize := small | medium | large | giant.

(** The string a [LogItem['type']] has, used as a key of [logsChopped]. *)
Definition kind_name (k : LogKind) : string :=
  match k with
  | regular => "regular" | hardwood => "hardwood"
  | golden => "golden" | mystic => "mystic"
  end.

Record LogItem := mkLogItem {
  id : string;
  type : LogKind;
  size : LogSize;
  health : Z;
  maxHealth : Z;
  points : Z;
  x : Z;
  y : Z;
  chopped : bool
}.

Inductive PowerUpType := double_axe | time_freeze | auto_chopper | combo_multiplier.

(** Field names are prefixed where two interfaces of the source share one
    ([id], [type]). *)
Record PowerUp := mkPowerUp {
  pu_id : string;
  pu_type : PowerUpType;
  duration : Z;
  active : bool;
  activatedAt : option Z
}.

Record Achievement := mkAchievement {
  ach_id : string;
  name : string;
  description : string;
  icon : string;
  progress : Z;
  maxProgress : Z;
  unlocked : bool;
  unlockedAt : option Z
}.

(** A JavaScript object used as a map ([{ [key: string]: number }]), in key
    insertion order. *)
Definition Obj := list (string * Z).

Fixpoint obj_get (o : Obj) (k : string) : option Z :=
  match o with
  | [] => None
  | (k', v) :: o' => if String.eqb k k' then Some v else obj_get o' k
  end.

Fixpoint obj_set (o : Obj) (k : string) (v : Z) : Obj :=
  match o with
  | [] => [(k, v)]
  | (k', v') :: o' =>
      if String.eqb k k' then (k', v) :: o' else (k', v') :: obj_set o' k v
  end.

Record GameStats := mkGameStats {
  totalPlayTime : Z;
  sessionsPlayed : Z;
  averageChopsPerMinute : Z;
  longestCombo : Z;
  fastestChop : Z;
  logsChopped : Obj
}.

Record GameState := mkGameState {
  playerId : string;
  playerName : string;
  score : Z;
  level : Z;
  totalChops : Z;
  bestCombo : Z;
  currentCombo : Z;
  logs : list LogItem;
  powerUps : list PowerUp;
  achievements : list Achievement;
  stats : GameStats;
  lastUpdated : Z
}.

(** What the methods read from the environment: [Date.now()] and whether
    [localStorage] exists. *)
Record Env := mkEnv {
  now : Z;
  storageAvailable : bool
}.

(** Setters for the fields the methods assign. *)
Definition set_counters (s : GameState) (sc tc best cur : Z) : GameState :=
  mkGameState (playerId s) (playerName s) sc (level s) tc best cur (logs s)
    (powerUps s) (achievements s) (stats s) (lastUpdated s).

Definition set_logs (s : GameState) (ls : list LogItem) : GameState :=
  mkGameState (playerId s) (playerName s) (score s) (level s) (totalChops s)
    (bestCombo s) (currentCombo s) ls (powerUps s) (achievements s)
    (stats s) (lastUpdated s).

Definition set_achievements (s : GameState) (a : list Achievement) : GameState :=
  mkGameState (playerId s) (playerName s) (score s) (level s) (totalChops s)
    (bestCombo s) (currentCombo s) (logs s) (powerUps s) a
    (stats s) (lastUpdated s).

Definition set_stats (s : GameState) (st : GameStats) : GameState :=
  mkGameState (playerId s) (playerName s) (score s) (level s) (totalChops s)
    (bestCombo s) (currentCombo s) (logs s) (powerUps s) (achievements s)
    st (lastUpdated s).

Definition set_lastUpdated (s : GameState) (t : Z) : GameState :=
  mkGameState (playerId s) (playerName s) (score s) (level s) (totalChops s)
    (bestCombo s) (currentCombo s) (logs s) (powerUps s) (achievements s)
    (stats s) t.

Definition set_currentCombo (s : GameState) (c : Z) : GameState :=
  set_counters s (score s) (totalChops s) (bestCombo s) c.

(** [Array.prototype.find] returns the first element satisfying the
    predicate; the methods then mutate that element in place, so its index
    is what matters. *)
Fixpoint find_index {A} (f : A -> bool) (l : list A) : option nat :=
  match l with
  | [] => None
  | a :: l' => if f a then Some O else option_map S (find_index f l')
  end.

(** [saveState()] on a non-null state: [lastUpdated = Date.now()] before
    [localStorage.setItem] (whose failure is caught and only logged). *)
Definition saveState (env : Env) (s : GameState) : GameState :=
  if storageAvailable env then set_lastUpdated s (now env) else s.

(** [updateAchievementProgress(achievementId, progress)]. *)
Definition updateAchievementProgress (env : Env) (achievementId : string)
    (p : Z) (s : GameState) : GameState :=
  match find_index (fun a => String.eqb (ach_id a) achievementId)
          (achievements s) with
  | None => s
  | Some i =>
      match nth_error (achievements s) i with
      | None => s
      | Some a =>
          if unlocked a then s
          else
            let pr := Z.min p (maxProgress a) in
            let a' :=
              if (maxProgress a <=? pr) && negb (unlocked a)
              then mkAchievement (ach_id a) (name a) (description a) (icon a)
                     pr (maxProgress a) true (Some (now env))
              else mkAchievement (ach_id a) (name a) (description a) (icon a)
                     pr (maxProgress a) (unlocked a) (unlockedAt a) in
            set_achievements s (replace_at i a' (achievements s))
      end
  end.

Record ChopResult := mkChopResult {
  success : bool;
  rpoints : Z;
  comboMultiplier : Z
}.

Definition failResult : ChopResult := mkChopResult false 0 1.

(** [this.gameState.stats.logsChopped[log.type] = (... || 0) + 1] and the
    fastest-chop record ([reactionTime &&] is false for [undefined] and 0). *)
Definition record_stats (k : LogKind) (reactionTime : option Z)
    (st : GameStats) : GameStats :=
  let lc := obj_set (logsChopped st) (kind_name k)
              (match obj_get (logsChopped st) (kind_name k) with
               | Some v => v | None => 0 end + 1) in
  let fc :=
    match reactionTime with
    | Some r =>
        if negb (r =? 0) && ((fastestChop st =? 0) || (r <? fastestChop st))
        then r else fastestChop st
    | None => fastestChop st
    end in
  mkGameStats (totalPlayTime st) (sessionsPlayed st)
    (averageChopsPerMinute st) (longestCombo st) fc lc.

(** [chopLog(logId, reactionTime?)]: the result and the new manager state
    ([None] is [gameState === null]). *)
Definition chopLog (env : Env) (gs : option GameState) (logId : string)
    (reactionTime : option Z) : ChopResult * option GameState :=
  match gs with
  | None => (failResult, None)
  | Some s =>
      match find_index (fun l => String.eqb (id l) logId && negb (chopped l))
              (logs s) with
      | None => (failResult, Some s)
      | Some i =>
          match nth_error (logs s) i with
          | None => (failResult, Some s)
          | Some l =>
              let l1 := mkLogItem (id l) (type l) (size l) (health l - 1)
                          (maxHealth l) (points l) (x l) (y l) (chopped l) in
              if health l1 <=? 0 then
                let l2 := mkLogItem (id l) (type l) (size l) (health l1)
                            (maxHealth l) (points l) (x l) (y l) true in
                let s0 := set_logs s (replace_at i l2 (logs s)) in
                let cur := currentCombo s0 + 1 in
                let tc := totalChops s0 + 1 in
                let mult := Z.min (cur / 5 + 1) 5 in
                let pts := points l * mult in
                let best := if bestCombo s0 <? cur then cur else bestCombo s0 in
                let s1 := set_counters s0 (score s0 + pts) tc best cur in
                let s2 := updateAchievementProgress env "first_chop" 1 s1 in
                let s3 := updateAchievementProgress env "century_club" 1 s2 in
                let s4 := updateAchievementProgress env "combo_master"
                            (currentCombo s3) s3 in
                let s5 := match type l with
                          | golden => updateAchievementProgress env
                                        "golden_touch" 1 s4
                          | _ => s4
                          end in
                let s6 := set_stats s5 (record_stats (type l) reactionTime
                                          (stats s5)) in
                (mkChopResult true pts mult, Some (saveState env s6))
              else
                (failResult, Some (set_logs s (replace_at i l1 (logs s))))
          end
      end
  end.

(** [resetCombo()]. *)
Definition resetCombo (env : Env) (gs : option GameState) : option GameState :=
  match gs with
  | None => None
  | Some s =>
      if currentCombo s =? 0 then Some s
      else Some (saveState env (set_currentCombo s 0))
  end.

(** The manager's combo-relevant events. *)
Inductive Event :=
  | Chop (env : Env) (logId : string) (reactionTime : option Z)
  | Reset (env : Env).

Definition step (e : Event) (gs : option GameState) : option GameState :=
  match e with
  | Chop env i r => snd (chopLog env gs i r)
  | Reset env => resetCombo env gs
  end.

Fixpoint run (es : list Event) (gs : option GameState) : option GameState :=
  match es with
  | [] => gs
  | e :: es' => run es' (step e gs)
  end.

(** Concrete states for the examples. *)
Definition sample_env : Env := mkEnv 5 true.

Definition sample_stats : GameStats := mkGameStats 0 1 0 0 0 [].

Definition sample_log (i : string) (h : Z) (c : bool) : LogItem :=
  mkLogItem i regular small h h 10 100 100 c.

Definition combo_master_at (p : Z) : Achievement :=
  mkAchievement "combo_master" "Combo Master" "Achieve a 10x combo" "fire"
    p 10 false None.

Definition combo_master_unlocked : Achievement :=
  mkAchievement "combo_master" "Combo Master" "Achieve a 10x combo" "fire"
    10 10 true (Some 3).

Definition sample_state (cur best : Z) (ls : list LogItem)
    (achs : list Achievement) : GameState :=
  mkGameState "p1" "Lumberjack_ab12" 0 1 0 best cur ls [] achs sample_stats 0.

End Manager.

(* ================================================================= *)
(** ** The [updateGameSession] mutation of [src/convex/gameSessions.ts] *)

Module Sessions.

Record SessionPowerUp := mkSessionPowerUp {
  sp_type : string;
  sp_activatedAt : Z;
  sp_duration : Z
}.

(** A [gameSessions] document. *)
Record GameSession := mkSession {
  playerId : string;
  score : Z;
  level : Z;
  combo : Z;
  maxCombo : Z;
  powerUps : list SessionPowerUp;
  startedAt : Z;
  endedAt : option Z;
  gameMode : string
}.

Record UpdateArgs := mkUpdateArgs {
  a_score : Z;
  a_level : Z;
  a_combo : Z;
  a_maxCombo : Z;
  a_powerUps : option (list SessionPowerUp)
}.

(** The handler: [ctx.db.patch(sessionId, updates)] applied to the stored
    session. *)
Definition updateGameSession (args : UpdateArgs) (d : GameSession) : GameSession :=
  mkSession (playerId d) (a_score args) (a_level args) (a_combo args)
    (Z.max (a_maxCombo args) (a_combo args))
    (match a_powerUps args with Some p => p | None => powerUps d end)
    (startedAt d) (endedAt d) (gameMode d).

(** A stored session at combo 10, best combo 10. *)
Definition session_at_10 : GameSession :=
  mkSession "p1" 500 1 10 10 [] 1000 None "classic".

End Sessions.

(* ================================================================= *)
(** ** Achievement evaluation of the [useConvexGame] hook *)

Module Hook.

(** An [achievements] document as [initializeAchievements] inserts it. *)
Record Requirement := mkRequirement {
  rtype : string;
  rvalue : Z
}.

Record AchievementDef := mkDef {
  ad_id : string;
  ad_name : string;
  ad_points : Z;
  ad_rarity : string;
  requirement : Requirement
}.

(** The fields of a [players] document the evaluation reads. *)
Record Player := mkPlayer {
  achievements : list string;
  totalChops : Z
}.

Record Stats := mkStats {
  score : Z;
  combo : Z;
  chops : Z;
  reactionTime : option Z
}.

Definition includes (l : list string) (s : string) : bool :=
  existsb (String.eqb s) l.

(** The [switch (achievement.requirement.type)] of the hook as the canvas
    imports it (the copy of [useConvexGame] whose [endGame] takes
    [maxCombo] and [level], found after the schema in
    [src/convex/schema.ts], lines 212-256). *)
Definition shouldUnlock (player : option Player) (st : Stats)
    (a : AchievementDef) : bool :=
  let v := rvalue (requirement a) in
  let t := rtype (requirement a) in
  if String.eqb t "score" then v <=? score st
  else if String.eqb t "combo" then v <=? combo st
  else if String.eqb t "chops_single_game" then v <=? chops st
  else if String.eqb t "reaction_time" then
    match reactionTime st with Some r => r <=? v | None => false end
  else if String.eqb t "total_chops" then
    v <=? (match player with Some p => totalChops p | None => 0 end) + chops st
  else false.

(** The loop of [checkAndUnlockAchievements]: the ids passed to
    [unlockAchievement], in order. *)
Fixpoint unlock_loop (player : option Player) (st : Stats)
    (all : list AchievementDef) : list string :=
  match all with
  | [] => []
  | a :: rest =>
      let skip := match player with
                  | Some p => includes (achievements p) (ad_id a)
                  | None => false
                  end in
      if skip then unlock_loop player st rest
      else if shouldUnlock player st a then ad_id a :: unlock_loop player st rest
      else unlock_loop player st rest
  end.

(** [checkAndUnlockAchievements(stats)]: [None] is the early
    [return] (no player id or catalogue yet). *)
Definition checkAndUnlockAchievements (playerId : option string)
    (allAchievements : option (list AchievementDef)) (player : option Player)
    (st : Stats) : option (list string) :=
  match playerId, allAchievements with
  | Some _, Some all => Some (unlock_loop player st all)
  | _, _ => None
  end.

(** [initializeAchievements]: the catalogue entry with a lifetime chop
    requirement. *)
Definition thousand_cuts : AchievementDef :=
  mkDef "thousand_cuts" "Thousand Cuts" 100 "rare"
    (mkRequirement "total_chops" 1000).

(** The same [switch] in the copy of the hook in [src/unnamed/part_000]
    (lines 131-145), which has no [total_chops] case. *)
Definition shouldUnlock_part_000 (st : Stats) (a : AchievementDef) : bool :=
  let v := rvalue (requirement a) in
  let t := rtype (requirement a) in
  if String.eqb t "score" then v <=? score st
  else if String.eqb t "combo" then v <=? combo st
  else if String.eqb t "chops_single_game" then v <=? chops st
  else if String.eqb t "reaction_time" then
    match reactionTime st with Some r => r <=? v | None => false end
  else false.

(** A player with no achievements and the given lifetime chop count, and
    the stats of a session with the given number of chops. *)
Definition sample_player (tc : Z) : Player := mkPlayer [] tc.

Definition session_stats (ch : Z) : Stats := mkStats 0 0 ch None.

End Hook.

(* ================================================================= *)
(** ** The other methods of [GameManager] *)

Module ManagerOps.

Import Manager.

(** [createInitialAchievements()]. *)
Definition initialAchievements : list Achievement :=
  [mkAchievement "first_chop" "First Swing" "Chop your first log" "🪓"
     0 1 false None;
   mkAchievement "combo_master" "Combo Master" "Achieve a 10x combo" "🔥"
     0 10 false None;
   mkAchievement "century_club" "Century Club" "Chop 100 logs" "💯"
     0 100 false None;
   mkAchievement "golden_touch" "Golden Touch" "Find and chop a golden log" "🏆"
     0 1 false None;
   mkAchievement "speed_demon" "Speed Demon" "Chop 50 logs in under 2 minutes" "⚡"
     0 50 false None].

(** [createInitialGameState(playerId)]; [suffix] is the random
    [Math.random().toString(36).substr(2, 4)]. *)
Definition createInitialGameState (env : Env) (pid suffix : string) : GameState :=
  mkGameState pid ("Lumberjack_" ++ suffix) 0 1 0 0 0 [] []
    initialAchievements (mkGameStats 0 1 0 0 0 []) (now env).

(** The manager object: its game state and its [initialized] flag. *)
Record ManagerObj := mkManager {
  gameState : option GameState;
  initialized : bool
}.

(** What [localStorage.getItem(key)] yields for [initialize]: nothing, an
    empty string or no [localStorage] (all falsy), a string [JSON.parse]
    turns into a game state (and that state), the string [null] (parsed
    to [null]), or a string it rejects (it throws).  A string parsing to
    another JSON value would put a non-state into [gameState], which the
    type [option GameState] does not hold. *)
Inductive Saved := NoSave | Parsed (s : GameState) | ParsedNull | Corrupt.

(** [initialize(playerId)]; [saved] is the stored value under
    [logmaster-game-state-<playerId>] and [suffix] the random name suffix. *)
Definition initialize (env : Env) (pid suffix : string) (saved : Saved)
    (m : ManagerObj) : ManagerObj :=
  if initialized m then m
  else
    match saved with
    | Parsed s => mkManager (Some s) true
    | ParsedNull => mkManager None true
    | NoSave =>
        mkManager (Some (saveState env (createInitialGameState env pid suffix)))
          true
    | Corrupt => mkManager (Some (createInitialGameState env pid suffix)) true
    end.

(** [spawnLog()]: the two arrays it draws from. *)
Definition logTypes : list LogKind := [regular; regular; regular; hardwood; golden].
Definition logSizes : list LogSize := [small; medium; large].

(** [let health = 1; let points = 10] and the [switch (size)]. *)
Definition size_stats (sz : LogSize) : Z * Z :=
  match sz with
  | small => (1, 10)
  | medium => (2, 20)
  | large => (3, 40)
  | giant => (5, 80)
  end.

(** The [switch (type)]. *)
Definition type_stats (k : LogKind) (hp : Z * Z) : Z * Z :=
  let '(h, p) := hp in
  match k with
  | regular => (h, p)
  | hardwood => (h + 1, p * 2)
  | golden => (h, p * 5)
  | mystic => (h * 2, p * 10)
  end.

(** [spawnLog()]: [ti] is [Math.floor(Math.random() * logTypes.length)]
    and [si] is [Math.floor(Math.random() * logSizes.length)]; [logId],
    [px] and [py] are the random id and position. *)
Definition spawnLog (env : Env) (ti si : nat) (logId : string) (px py : Z)
    (gs : option GameState) : option GameState :=
  match gs with
  | None => None
  | Some s =>
      let k := nth ti logTypes regular in
      let sz := nth si logSizes small in
      let '(h, p) := type_stats k (size_stats sz) in
      let l := mkLogItem logId k sz h h p px py false in
      Some (saveState env (set_logs s (logs s ++ [l])))
  end.

Definition set_powerUps (s : GameState) (ps : list PowerUp) : GameState :=
  mkGameState (playerId s) (playerName s) (score s) (level s) (totalChops s)
    (bestCombo s) (currentCombo s) (logs s) ps (achievements s)
    (stats s) (lastUpdated s).

Definition PowerUpType_eqb (a b : PowerUpType) : bool :=
  match a, b with
  | double_axe, double_axe | time_freeze, time_freeze
  | auto_chopper, auto_chopper | combo_multiplier, combo_multiplier => true
  | _, _ => false
  end.

(** [getPowerUpDuration(type)]. *)
Definition getPowerUpDuration (t : PowerUpType) : Z :=
  match t with
  | double_axe => 15000
  | time_freeze => 10000
  | auto_chopper => 20000
  | combo_multiplier => 30000
  end.

(** [activatePowerUp(powerUpType)]; [newId] is [`powerup_${Date.now()}`]. *)
Definition activatePowerUp (env : Env) (t : PowerUpType) (newId : string)
    (gs : option GameState) : option GameState :=
  match gs with
  | None => None
  | Some s =>
      match find_index (fun p => PowerUpType_eqb (pu_type p) t) (powerUps s) with
      | Some i =>
          match nth_error (powerUps s) i with
          | Some p =>
              let p' := mkPowerUp (pu_id p) (pu_type p) (duration p) true
                          (Some (now env)) in
              Some (saveState env (set_powerUps s (replace_at i p' (powerUps s))))
          | None => Some (saveState env s)
          end
      | None =>
          let p' := mkPowerUp newId t (getPowerUpDuration t) true (Some (now env)) in
          Some (saveState env (set_powerUps s (powerUps s ++ [p'])))
      end
  end.

(** The filter of [cleanupLogs]:
    [!log.chopped || (Date.now() - log.choppedAt) < 5000].  No code sets
    [choppedAt] (it is not a field of [LogItem]), so it is [undefined], the
    difference is [NaN] and the comparison is [false]. *)
Definition keep_log (l : LogItem) : bool := negb (chopped l) || false.

(** [cleanupLogs()]. *)
Definition cleanupLogs (env : Env) (gs : option GameState) : option GameState :=
  match gs with
  | None => None
  | Some s =>
      let ls := filter keep_log (logs s) in
      if Nat.eqb (List.length (logs s)) (List.length ls)
      then Some (set_logs s ls)
      else Some (saveState env (set_logs s ls))
  end.

(** The achievement updates [chopLog] makes:
    [updateAchievementProgress(j, p)] for these [j] and [p]. *)
Definition chop_update (j : string) (p : Z) : Prop :=
  (j = "first_chop"%string /\ p = 1) \/ (j = "century_club"%string /\ p = 1) \/
  j = "combo_master"%string \/ (j = "golden_touch"%string /\ p = 1).

(** [export const gameManager = new GameManager()]. *)
Definition newGameManager : ManagerObj := mkManager None false.

(** A log after [log.health] is assigned. *)
Definition with_health (l : LogItem) (h : Z) : LogItem :=
  mkLogItem (id l) (type l) (size l) h (maxHealth l) (points l) (x l) (y l)
    (chopped l).

(** Concrete states for the examples: a fresh state, one with a single log
    "a" of the given health, and one holding an inactive double axe. *)
Definition fresh_state : GameState := createInitialGameState sample_env "p1" "ab12".

Definition fresh_with_log (h : Z) : GameState :=
  set_logs fresh_state [sample_log "a" h false].

Definition axe_state : GameState :=
  set_powerUps fresh_state [mkPowerUp "powerup_1" double_axe 15000 false None].

(** [n] further calls [chopLog(logId, reactionTime)], keeping the state. *)
Fixpoint chop_times (env : Env) (n : nat) (logId : string) (rt : option Z)
    (gs : option GameState) : option GameState :=
  match n with
  | O => gs
  | S n' => chop_times env n' logId rt (snd (chopLog env gs logId rt))
  end.

End ManagerOps.

(* ================================================================= *)
(** ** The Convex mutations and queries of [src/convex] *)

Module Convex.

(** A [players] document ([schema.ts]); names are prefixed where they
    would clash with the game manager's. *)
Record PlayerStats := mkPlayerStats {
  gamesPlayed : Z;
  ps_totalPlayTime : Z;
  ps_fastestChop : Z;
  ps_longestCombo : Z;
  favoriteAxe : string
}.

Record PlayerDoc := mkPlayerDoc {
  userId : string;
  pname : string;
  highScore : Z;
  totalScore : Z;
  ptotalChops : Z;
  pachievements : list string;
  pstats : PlayerStats;
  createdAt : Z;
  lastPlayed : Z
}.

(** A [leaderboard] document. *)
Record LeaderboardEntry := mkEntry {
  lb_playerId : string;
  lb_playerName : string;
  lb_score : Z;
  lb_combo : Z;
  lb_gameMode : string;
  achievedAt : Z;
  week : Z;
  month : Z
}.

(** An [achievements] document. *)
Record AchievementDoc := mkAchDoc {
  doc_id : string;
  doc_name : string;
  doc_description : string;
  doc_icon : string;
  doc_points : Z;
  doc_rarity : string;
  doc_requirement : Hook.Requirement
}.

(** The fields the hook's evaluation reads. *)
Definition to_def (d : AchievementDoc) : Hook.AchievementDef :=
  Hook.mkDef (doc_id d) (doc_name d) (doc_points d) (doc_rarity d)
    (doc_requirement d).

(** The tables the functions use, each in creation order, paired with the
    documents' [_id]s. *)
Record Db := mkDb {
  players : list (string * PlayerDoc);
  sessions : list (string * Sessions.GameSession);
  leaderboard : list (string * LeaderboardEntry);
  achievementsTable : list AchievementDoc
}.

(** What a mutation throws; a mutation that throws is rolled back, so it
    leaves no database. *)
Inductive Error :=
  | NameTaken (name : string)
  | PlayerNotFound
  | SessionNotFound
  | NonexistentDocument.

Inductive Result (A : Type) :=
  | Ok (a : A) (db : Db)
  | Err (e : Error).

Arguments Ok {A} a db.
Arguments Err {A} e.

(** [ctx.db.get(id)]. *)
Fixpoint lookup {A} (i : string) (t : list (string * A)) : option A :=
  match t with
  | [] => None
  | (j, d) :: t' => if String.eqb j i then Some d else lookup i t'
  end.

(** [ctx.db.patch(id, fields)] on a document that exists. *)
Definition patch {A} (i : string) (g : A -> A) (t : list (string * A))
    : list (string * A) :=
  map (fun e => if String.eqb (fst e) i then (fst e, g (snd e)) else e) t.

(** [.first()] of a query (a full scan, or an index range whose order is
    the creation order) filtered by [f]. *)
Fixpoint first_where {A} (f : A -> bool) (t : list (string * A))
    : option (string * A) :=
  match t with
  | [] => None
  | (j, d) :: t' => if f d then Some (j, d) else first_where f t'
  end.

Definition set_players (db : Db) (ps : list (string * PlayerDoc)) : Db :=
  mkDb ps (sessions db) (leaderboard db) (achievementsTable db).

Definition set_sessions (db : Db) (ss : list (string * Sessions.GameSession)) : Db :=
  mkDb (players db) ss (leaderboard db) (achievementsTable db).

Definition set_leaderboard (db : Db) (lb : list (string * LeaderboardEntry)) : Db :=
  mkDb (players db) (sessions db) lb (achievementsTable db).

Definition set_achievementsTable (db : Db) (a : list AchievementDoc) : Db :=
  mkDb (players db) (sessions db) (leaderboard db) a.

(** [players.createOrUpdatePlayer]; [now] is [Date.now()] and [newId] the
    id the insert assigns. *)
Definition createOrUpdatePlayer (now : Z) (newId uid name : string) (db : Db)
    : Result string :=
  let existing := first_where (fun p => String.eqb (userId p) uid) (players db) in
  let nameConflict := first_where (fun p => String.eqb (pname p) name) (players db) in
  let taken := match nameConflict with
               | Some (_, c) => negb (String.eqb (userId c) uid)
               | None => false
               end in
  if taken then Err (NameTaken name)
  else
    match existing with
    | Some (pid, _) =>
        Ok pid (set_players db (patch pid (fun p =>
          mkPlayerDoc (userId p) name (highScore p) (totalScore p) (ptotalChops p)
            (pachievements p) (pstats p) (createdAt p) now) (players db)))
    | None =>
        Ok newId (set_players db (players db ++
          [(newId, mkPlayerDoc uid name 0 0 0 [] (mkPlayerStats 0 0 0 0 "basic")
                     now now)]))
    end.

(** [players.getPlayer]. *)
Definition getPlayer (uid : string) (db : Db) : option (string * PlayerDoc) :=
  first_where (fun p => String.eqb (userId p) uid) (players db).

(** [players.checkNameAvailability]. *)
Definition checkNameAvailability (name : string) (excludeUserId : option string)
    (db : Db) : bool :=
  match first_where (fun p => String.eqb (pname p) name) (players db) with
  | None => true
  | Some (_, p) =>
      match excludeUserId with
      | Some u => String.eqb (userId p) u
      | None => false
      end
  end.

(** [players.updatePlayerStats]; [fastestChop] is [undefined] or a number
    ([args.fastestChop && ...] is false for 0). *)
Definition updatePlayerStats (now : Z) (pid : string) (score chops combo playTime : Z)
    (fastestChop : option Z) (db : Db) : Result unit :=
  match lookup pid (players db) with
  | None => Err PlayerNotFound
  | Some p =>
      let st := pstats p in
      let fc := match fastestChop with
                | Some f =>
                    if negb (f =? 0) &&
                       ((ps_fastestChop st =? 0) || (f <? ps_fastestChop st))
                    then f else ps_fastestChop st
                | None => ps_fastestChop st
                end in
      let st' := mkPlayerStats (gamesPlayed st + 1) (ps_totalPlayTime st + playTime)
                   fc (Z.max (ps_longestCombo st) combo) (favoriteAxe st) in
      let hs := if highScore p <? score then score else highScore p in
      Ok tt (set_players db (patch pid (fun p =>
        mkPlayerDoc (userId p) (pname p) hs (totalScore p + score)
          (ptotalChops p + chops) (pachievements p) st' (createdAt p) now)
        (players db)))
  end.

(** [players.unlockAchievement]. *)
Definition unlockAchievement (pid achievementId : string) (db : Db) : Result unit :=
  match lookup pid (players db) with
  | None => Err PlayerNotFound
  | Some p =>
      if Hook.includes (pachievements p) achievementId then Ok tt db
      else
        Ok tt (set_players db (patch pid (fun p =>
          mkPlayerDoc (userId p) (pname p) (highScore p) (totalScore p)
            (ptotalChops p) (pachievements p ++ [achievementId]) (pstats p)
            (createdAt p) (lastPlayed p)) (players db)))
  end.

(** [gameSessions.startGameSession]. *)
Definition startGameSession (now : Z) (newId pid gameMode : string) (db : Db)
    : Result string :=
  Ok newId (set_sessions db (sessions db ++
    [(newId, Sessions.mkSession pid 0 1 0 0 [] now None gameMode)])).

(** [gameSessions.getActiveSession]: the [by_player] index lists a
    player's sessions in creation order. *)
Definition getActiveSession (pid : string) (db : Db)
    : option (string * Sessions.GameSession) :=
  first_where (fun s => String.eqb (Sessions.playerId s) pid &&
                        match Sessions.endedAt s with None => true | Some _ => false end)
    (sessions db).

(** [getFullYear() * 12 + getMonth()] of [new Date(t)] in UTC, the time
    zone of the Convex runtime (days to proleptic Gregorian date). *)
Definition utc_month (t : Z) : Z :=
  let z := t / 86400000 + 719468 in
  let era := z / 146097 in
  let doe := z - era * 146097 in
  let yoe := (doe - doe / 1460 + doe / 36524 - doe / 146096) / 365 in
  let doy := doe - (365 * yoe + yoe / 4 - yoe / 100) in
  let mp := (5 * doy + 2) / 153 in
  let m := if mp <? 10 then mp + 3 else mp - 9 in
  let yr := yoe + era * 400 + (if m <=? 2 then 1 else 0) in
  yr * 12 + (m - 1).

(** [gameSessions.endGameSession]; [now] is the frozen [Date.now()] of the
    mutation and [entryId] the id of the leaderboard insert. *)
Definition endGameSession (now : Z) (entryId sid : string) (db : Db)
    : Result Sessions.GameSession :=
  match lookup sid (sessions db) with
  | None => Err SessionNotFound
  | Some sess =>
      let db1 := set_sessions db (patch sid (fun s =>
                   Sessions.mkSession (Sessions.playerId s) (Sessions.score s)
                     (Sessions.level s) (Sessions.combo s) (Sessions.maxCombo s)
                     (Sessions.powerUps s) (Sessions.startedAt s) (Some now)
                     (Sessions.gameMode s)) (sessions db)) in
      match lookup (Sessions.playerId sess) (players db1) with
      | None => Err PlayerNotFound
      | Some p =>
          Ok sess (set_leaderboard db1 (leaderboard db1 ++
            [(entryId, mkEntry (Sessions.playerId sess) (pname p)
                         (Sessions.score sess) (Sessions.maxCombo sess)
                         (Sessions.gameMode sess) now (now / 604800000)
                         (utc_month now))]))
      end
  end.

(** The [achievements] array of [initializeAchievements]. *)
Definition catalogue : list AchievementDoc :=
  [mkAchDoc "first_chop" "First Swing" "Chop your first log" "🪓" 10 "common"
     (Hook.mkRequirement "chops" 1);
   mkAchDoc "combo_apprentice" "Combo Apprentice" "Achieve a 10x combo" "🔥" 25
     "common" (Hook.mkRequirement "combo" 10);
   mkAchDoc "combo_master" "Combo Master" "Achieve a 50x combo" "💥" 100 "rare"
     (Hook.mkRequirement "combo" 50);
   mkAchDoc "combo_legend" "Combo Legend" "Achieve a 100x combo" "⚡" 500
     "legendary" (Hook.mkRequirement "combo" 100);
   mkAchDoc "century_club" "Century Club" "Chop 100 logs in one game" "💯" 50
     "common" (Hook.mkRequirement "chops_single_game" 100);
   mkAchDoc "thousand_cuts" "Thousand Cuts" "Chop 1000 logs total" "🌲" 100 "rare"
     (Hook.mkRequirement "total_chops" 1000);
   mkAchDoc "score_rookie" "Rookie Lumberjack" "Score 1,000 points" "🏅" 20
     "common" (Hook.mkRequirement "score" 1000);
   mkAchDoc "score_pro" "Professional Lumberjack" "Score 10,000 points" "🏆" 100
     "rare" (Hook.mkRequirement "score" 10000);
   mkAchDoc "score_legend" "Legendary Lumberjack" "Score 100,000 points" "👑" 1000
     "legendary" (Hook.mkRequirement "score" 100000);
   mkAchDoc "speed_demon" "Speed Demon" "Chop a log in under 200ms" "⚡" 75 "rare"
     (Hook.mkRequirement "reaction_time" 200);
   mkAchDoc "power_user" "Power User" "Use all 4 different power-ups" "💪" 50
     "rare" (Hook.mkRequirement "power_ups_used" 4);
   mkAchDoc "survivor" "Survivor" "Survive for 5 minutes in Survival mode" "🛡️" 200
     "epic" (Hook.mkRequirement "survival_time" 300)].

(** [achievements.initializeAchievements]. *)
Definition initializeAchievements (db : Db) : Db :=
  match achievementsTable db with
  | [] => set_achievementsTable db catalogue
  | _ => db
  end.

(** [achievements.getAllAchievements]. *)
Definition getAllAchievements (db : Db) : list AchievementDoc := achievementsTable db.

(** Names are unique across users: two players with one name belong to
    the same user (what the [nameConflict] check maintains). *)
Definition names_ok (db : Db) : Prop :=
  forall i j p q, In (i, p) (players db) -> In (j, q) (players db) ->
    pname p = pname q -> userId p = userId q.

(** A database for the examples. *)
Definition sample_player_doc (uid name : string) : PlayerDoc :=
  mkPlayerDoc uid name 0 0 0 [] (mkPlayerStats 0 0 0 0 "basic") 0 0.

Definition sample_db : Db :=
  mkDb [("pl1"%string, sample_player_doc "u1" "Alice");
        ("pl2"%string, sample_player_doc "u2" "Bob")]
    [("gs1"%string, Sessions.mkSession "pl1" 700 2 3 9 [] 1000 None "classic")] [] [].

End Convex.

(* ================================================================= *)
(** ** The leaderboard queries of [src/convex/leaderboard.ts] *)

Module Leaderboard.

Import Convex.

(** Inserting [r] after every entry whose score is at least its own. *)
Fixpoint insert_desc (r : LeaderboardEntry) (l : list LeaderboardEntry)
    : list LeaderboardEntry :=
  match l with
  | [] => [r]
  | x :: l' => if lb_score x <? lb_score r then r :: x :: l' else x :: insert_desc r l'
  end.

(** A stable sort by descending score: [Array.prototype.sort] with
    [(a, b) => b.score - a.score], and the descending order of the
    [score]-keyed indexes applied to rows listed newest first. *)
Definition sort_desc (l : list LeaderboardEntry) : list LeaderboardEntry :=
  fold_left (fun acc r => insert_desc r acc) l [].

(** The index range a branch of [getTopScores] scans: [args.gameMode]
    when it is a non-empty string, else the current week, the current
    month, or everything. *)
Definition in_range (gameMode timeFrame : option string) (now : Z)
    (e : LeaderboardEntry) : bool :=
  let by_time :=
    match timeFrame with
    | Some tf =>
        if String.eqb tf "weekly" then week e =? now / 604800000
        else if String.eqb tf "monthly" then month e =? utc_month now
        else true
    | None => true
    end in
  match gameMode with
  | Some m => if String.eqb m "" then by_time else String.eqb (lb_gameMode e) m
  | None => by_time
  end.

(** [scores]: the rows of the range in descending score order (ties:
    newest first), [.filter(score > 0)], [.take(limit)]. *)
Definition taken (gameMode timeFrame : option string) (lim : nat) (now : Z) (db : Db)
    : list LeaderboardEntry :=
  firstn lim (filter (fun e => 0 <? lb_score e)
    (sort_desc (rev (filter (in_range gameMode timeFrame now)
                       (map snd (leaderboard db)))))).



(** [getPlayerRank]: [None] for a missing player, else
    [(rank, highScore, playerName)]. *)
Definition getPlayerRank (pid : string) (gameMode : option string) (db : Db)
    : option (Z * Z * string) :=
  match lookup pid (players db) with
  | None => None
  | Some p =>
      let inMode e := match gameMode with
                      | Some m => if String.eqb m "" then true
                                  else String.eqb (lb_gameMode e) m
                      | None => true
                      end in
      let higher := filter (fun e => inMode e && (highScore p <? lb_score e))
                      (map snd (leaderboard db)) in
      Some (Z.of_nat (List.length (nodup string_dec (map lb_playerId higher))) + 1,
            highScore p, pname p)
  end.

(** The order of a descending result: [b] comes after [a]. *)
Definition desc (a b : LeaderboardEntry) : Prop := lb_score b <= lb_score a.

(** Two players, with high scores 800 and 500, and a leaderboard with two
    entries of the first and one of the second. *)
Definition sample_entry (pid : string) (sc : Z) : LeaderboardEntry :=
  mkEntry pid pid sc 0 "classic" 0 0 0.

Definition board_db : Db :=
  mkDb [("pl1"%string, mkPlayerDoc "u1" "Alice" 800 1100 0 []
                         (mkPlayerStats 2 0 0 0 "basic") 0 0);
        ("pl2"%string, mkPlayerDoc "u2" "Bob" 500 500 0 []
                         (mkPlayerStats 1 0 0 0 "basic") 0 0)]
    []
    [("lb1"%string, sample_entry "pl1" 300); ("lb2"%string, sample_entry "pl2" 500);
     ("lb3"%string, sample_entry "pl1" 800)]
    [].

End Leaderboard.

(* ================================================================= *)
(** ** The hook's calls of the Convex mutations *)

Module ConvexHook.

Import Convex.

(** The [await unlockAchievement({ playerId, achievementId })] calls of
    [checkAndUnlockAchievements], one per unlocked id, in order; the
    first call that throws stops the loop, the earlier ones stay
    committed. *)
Fixpoint unlock_each (pid : string) (ids : list string) (db : Db) : Db * option Error :=
  match ids with
  | [] => (db, None)
  | a :: rest =>
      match unlockAchievement pid a db with
      | Ok _ db' => unlock_each pid rest db'
      | Err e => (db, Some e)
      end
  end.

(** [stats.chops || 0] and [stats.playTime || 0]. *)
Definition or_zero (v : option Z) : Z :=
  match v with Some n => n | None => 0 end.

(** [endGame(stats)]: nothing without a session or player id; otherwise
    [endGameSession] then [updatePlayerStats], two mutations, so an error
    in the second leaves the first committed. [now1] and [now2] are the
    two mutations' [Date.now()]. *)
Definition endGame (now1 now2 : Z) (entryId : string) (sessionId playerId : option string)
    (score maxCombo : Z) (chops playTime fastestChop : option Z) (db : Db)
    : Db * option Error :=
  match sessionId, playerId with
  | Some sid, Some pid =>
      match endGameSession now1 entryId sid db with
      | Err e => (db, Some e)
      | Ok _ db1 =>
          match updatePlayerStats now2 pid score (or_zero chops) maxCombo
                  (or_zero playTime) fastestChop db1 with
          | Ok _ db2 => (db2, None)
          | Err e => (db1, Some e)
          end
      end
  | _, _ => (db, None)
  end.

End ConvexHook.

(* ================================================================= *)
(** ** The log spawner of the canvas scene *)

Module CanvasOps.

Import Canvas.

(** [spawnLog()] of [GameScene]: [rand] is [Math.random()], [px] the draw
    [Phaser.Math.Between(50, width - 50)] and [speed] the draw
    [Phaser.Math.Between(100, 150 + level * 10)]; the new log starts at
    [y = -50]. The thresholds are the decimal constants of the source,
    [0.25 + level * 0.05] computed exactly. *)
Definition spawnLog (level : Z) (rand : Q) (px speed : Z) : LogObject :=
  if Qltb rand (2 # 100) then mkLog error 1 (-100) speed px (inject_Z (-50)) 80 50
  else if Qltb rand (7 # 100) then mkLog golden 1 500 speed px (inject_Z (-50)) 60 40
  else if Qltb rand ((25 # 100) + inject_Z level * (5 # 100))
  then mkLog hardwood 3 100 speed px (inject_Z (-50)) 70 45
  else mkLog normal 2 50 speed px (inject_Z (-50)) 60 40.

(** Only an error log may carry negative points. *)
Definition wf_log (l : LogObject) : Prop :=
  is_error (logType l) = false -> 0 <= points l.

(** A frame whose spawned log is one [spawnLog] can produce. *)
Definition spawned_by_spawnLog (e : Event) : Prop :=
  match e with
  | Tick _ _ _ _ sp => exists lv r px v, sp = spawnLog lv r px v
  | Click _ _ _ => True
  end.

(** The spawn interval of a level: the initial [2000] at level 1, and
    [Math.max(500, 2000 - level * 100)] once the level has risen. *)
Definition rate_of_level (lv : Z) : Z :=
  if lv =? 1 then 2000 else Z.max 500 (2000 - lv * 100).

(** The invariant behind a non-negative score: the score is at least 0
    and every log on screen is well formed. *)
Definition score_inv (w : Scene * GameStats) : Prop :=
  0 <= score (fst w) /\ Forall wf_log (logs (fst w)).

(** The position a log moves to in a frame of [delta] ms. *)
Definition fallen (delta : Z) (l : LogObject) : LogObject :=
  with_y l (y l + inject_Z (fallSpeed l * delta) / inject_Z 1000).

(** Whether it is then below the screen of height [screenH]. *)
Definition off_screen (delta screenH : Z) (l : LogObject) : bool :=
  Qltb (inject_Z (screenH + 50)) (y (fallen delta l)).

End CanvasOps.

(* ================================================================= *)
(** * Properties *)

(** ** List facts for [remove_at] and [replace_at] *)

Lemma firstn_length_lt {A} (i : nat) (l : list A) :
  (i < List.length l)%nat -> List.length (firstn i l) = i.
Proof. intros H. rewrite length_firstn. lia. Qed.

Lemma replace_at_nth_same {A} (i : nat) (a : A) (l : list A) :
  (i < List.length l)%nat -> nth_error (replace_at i a l) i = Some a.
Proof.
  intros H. unfold replace_at.
  rewrite nth_error_app2; rewrite (firstn_length_lt i l H); [|lia].
  rewrite Nat.sub_diag. reflexivity.
Qed.

Lemma replace_at_nth_other {A} (i k : nat) (a : A) (l : list A) :
  (i < List.length l)%nat -> k <> i ->
  nth_error (replace_at i a l) k = nth_error l k.
Proof.
  intros H Hk. unfold replace_at.
  destruct (Nat.lt_ge_cases k i) as [Hlt | Hge].
  - rewrite nth_error_app1 by (rewrite (firstn_length_lt i l H); lia).
    rewrite nth_error_firstn. destruct (Nat.ltb_spec k i); [reflexivity | lia].
  - rewrite nth_error_app2 by (rewrite (firstn_length_lt i l H); lia).
    rewrite (firstn_length_lt i l H).
    replace (k - i)%nat with (S (k - S i)) by lia.
    cbn [nth_error]. rewrite nth_error_skipn. f_equal. lia.
Qed.

Lemma replace_at_length {A} (i : nat) (a : A) (l : list A) :
  (i < List.length l)%nat -> List.length (replace_at i a l) = List.length l.
Proof.
  intros H. unfold replace_at. rewrite length_app. cbn [Datatypes.length].
  rewrite (firstn_length_lt i l H), length_skipn. lia.
Qed.

Lemma find_index_none {A} (f : A -> bool) (l : list A) :
  Manager.find_index f l = None <-> (forall a, In a l -> f a = false).
Proof.
  induction l as [|b l IH]; simpl.
  - split; [intros _ a [] | reflexivity].
  - destruct (f b) eqn:Hb.
    + split; [discriminate | intros H; rewrite (H b (or_introl eq_refl)) in Hb; discriminate].
    + destruct (Manager.find_index f l) eqn:E; simpl.
      * split; [discriminate|]. intros H.
        assert (Hn : Some n = None) by (apply IH; intros; apply H; auto).
        discriminate.
      * split; [|reflexivity]. intros _ a [<- | Ha]; [assumption|].
        apply IH; auto.
Qed.

Lemma find_index_some {A} (f : A -> bool) (l : list A) (i : nat) :
  Manager.find_index f l = Some i -> exists a, nth_error l i = Some a /\ f a = true.
Proof.
  revert i. induction l as [|b l IH]; intros i; simpl; [discriminate|].
  destruct (f b) eqn:Hb.
  - intros [= <-]. exists b. auto.
  - destruct (Manager.find_index f l) as [j|] eqn:E; simpl; [|discriminate].
    intros [= <-]. apply IH. reflexivity.
Qed.

Module CanvasFacts.
Import Canvas.

(** [scan_from] returns the greatest index below [i] whose log contains the
    point. *)
Lemma scan_from_some (ls : list LogObject) (px py : Z) (i j : nat) :
  scan_from ls i px py = Some j ->
  (j < i)%nat /\
  (exists l, nth_error ls j = Some l /\ contains l px py = true) /\
  (forall k l, (j < k < i)%nat -> nth_error ls k = Some l ->
               contains l px py = false).
Proof.
  induction i as [|i IH]; simpl; [discriminate|].
  destruct (nth_error ls i) as [l|] eqn:Hl.
  - destruct (contains l px py) eqn:Hc.
    + intros [= <-]. split; [lia|]. split; [exists l; auto|].
      intros k l' Hk. lia.
    + intros H. destruct (IH H) as (Hj & Hex & Hrest).
      split; [lia|]. split; [assumption|].
      intros k l' Hk Hk'. destruct (Nat.eq_dec k i) as [->|Hne].
      * congruence.
      * apply (Hrest k l'); [lia | assumption].
  - intros H. destruct (IH H) as (Hj & Hex & Hrest).
    split; [lia|]. split; [assumption|].
    intros k l' Hk Hk'. destruct (Nat.eq_dec k i) as [->|Hne].
    + congruence.
    + apply (Hrest k l'); [lia | assumption].
Qed.

Lemma scan_from_none (ls : list LogObject) (px py : Z) (i : nat) :
  scan_from ls i px py = None ->
  forall k l, (k < i)%nat -> nth_error ls k = Some l -> contains l px py = false.
Proof.
  induction i as [|i IH]; simpl; intros H k l Hk Hl; [lia|].
  destruct (nth_error ls i) as [l'|] eqn:Hl'.
  - destruct (contains l' px py) eqn:Hc; [discriminate|].
    destruct (Nat.eq_dec k i) as [->|Hne]; [congruence|].
    apply (IH H k l); [lia | assumption].
  - destruct (Nat.eq_dec k i) as [->|Hne]; [congruence|].
    apply (IH H k l); [lia | assumption].
Qed.

Lemma find_hit_none_iff (ls : list LogObject) (px py : Z) :
  find_hit ls px py = None -> forall l, In l ls -> contains l px py = false.
Proof.
  unfold find_hit. intros H l Hin.
  destruct (In_nth_error ls l Hin) as [k Hk].
  apply (scan_from_none ls px py _ H k l); [|assumption].
  apply nth_error_Some. congruence.
Qed.



(** C1 (code_bug): the canvas computes the non-error multiplier as
    [Math.max(1, Math.floor(combo / 5) + 1)] with no cap, whereas
    [GameManager.chopLog] uses [Math.min(Math.floor(combo / 5) + 1, 5)].
    Destroying a 1-hit, 50-point normal log at combo 24 (25 after the
    increment) from score 0 scores 50 * 6 = 300, not 50 * 5 = 250. *)
Lemma multiplier_uncapped_at_combo_25 :
  multiplier 25 = 6 /\ Z.min (25 / 5 + 1) 5 = 5 /\
  combo (fst (chopAtPosition false 100 100
                (scene_with 0 24 [plain_log 1 50 100 100]) no_stats)) = 25 /\
  score (fst (chopAtPosition false 100 100
                (scene_with 0 24 [plain_log 1 50 100 100]) no_stats)) = 300.
Proof. vm_compute. repeat split. Qed.

(** C2: destroying an error (hazard) log sets the combo to 0 and the score
    to [max(0, score + points)], so the score is never negative afterwards,
    whatever the previous score and combo. *)
Theorem hazard_destroy_resets_combo_and_clamps_score
    (s : Scene) (st : GameStats) (px py : Z) (j : nat) (l : LogObject)
    (Hfind : find_hit (logs s) px py = Some j)
    (Hnth : nth_error (logs s) j = Some l)
    (Htype : logType l = error)
    (Hhits : hitsRemaining l <= 1) :
  combo (fst (chopAtPosition false px py s st)) = 0 /\
  score (fst (chopAtPosition false px py s st)) = Z.max 0 (score s + points l) /\
  0 <= score (fst (chopAtPosition false px py s st)).
Proof.
  unfold chopAtPosition. rewrite Hfind, Hnth. unfold hit_log. cbn [hitsRemaining with_hits].
  destruct (Z.leb_spec (hitsRemaining l - 1) 0) as [_|H]; [|lia].
  rewrite Htype. cbn. split; [reflexivity|]. split; [reflexivity|]. lia.
Qed.

(** Scenario E: a hazard destroy with [points = -100] at score 40 leaves
    score 0. *)
Lemma hazard_destroy_resets_combo_and_clamps_score_witness :
  score (fst (chopAtPosition false 100 100
                (scene_with 40 7 [error_log 100 100]) no_stats)) = 0 /\
  (combo (fst (chopAtPosition false 100 100
                (scene_with 40 7 [error_log 100 100]) no_stats)) = 0 /\
   score (fst (chopAtPosition false 100 100
                (scene_with 40 7 [error_log 100 100]) no_stats))
     = Z.max 0 (score (scene_with 40 7 [error_log 100 100])
                + points (error_log 100 100)) /\
   0 <= score (fst (chopAtPosition false 100 100
                (scene_with 40 7 [error_log 100 100]) no_stats))).
Proof.
  split; [vm_compute; reflexivity|].
  apply (hazard_destroy_resets_combo_and_clamps_score
           (scene_with 40 7 [error_log 100 100]) no_stats 100 100 0%nat
           (error_log 100 100)).
  - vm_compute. reflexivity.
  - reflexivity.
  - reflexivity.
  - simpl. lia.
Defined.

(** C4 (counterexample): a click while paused is ignored entirely, so a
    click that lands on no log does not reset the combo. *)
Lemma paused_miss_keeps_combo :
  find_hit (logs (scene_with 0 3 [])) 10 10 = None /\
  combo (fst (chopAtPosition true 10 10 (scene_with 0 3 []) no_stats)) = 3.
Proof. split; reflexivity. Qed.

(** C4 (amended): a click while paused changes nothing.  Otherwise the
    resolver picks the log with the greatest index (the most recently
    spawned, [spawnLog] appends) whose bounds contain the point; only that
    log is affected (damaged in place, or removed when destroyed), every
    other log is kept in order.  When no log contains the point the combo
    is reset to 0 and the score, the logs and the stats are unchanged. *)
Theorem chopAtPosition_resolves_at_most_one_log
    (s : Scene) (st : GameStats) (px py : Z) :
  chopAtPosition true px py s st = (s, st) /\
  match find_hit (logs s) px py with
  | Some j =>
      (j < List.length (logs s))%nat /\
      (forall k l', (j < k < List.length (logs s))%nat ->
                    nth_error (logs s) k = Some l' -> contains l' px py = false) /\
      exists l, nth_error (logs s) j = Some l /\ contains l px py = true /\
        logs (fst (chopAtPosition false px py s st)) =
          firstn j (logs s) ++
          (if hitsRemaining l - 1 <=? 0 then []
           else [with_hits l (hitsRemaining l - 1)]) ++
          skipn (S j) (logs s)
  | None =>
      (forall l, In l (logs s) -> contains l px py = false) /\
      combo (fst (chopAtPosition false px py s st)) = 0 /\
      score (fst (chopAtPosition false px py s st)) = score s /\
      logs (fst (chopAtPosition false px py s st)) = logs s /\
      snd (chopAtPosition false px py s st) = st
  end.
Proof.
  split; [reflexivity|].
  destruct (find_hit (logs s) px py) as [j|] eqn:Hf.
  - destruct (scan_from_some _ _ _ _ _ Hf) as (Hj & (l & Hl & Hc) & Hrest).
    split; [assumption|]. split; [assumption|].
    exists l. split; [assumption|]. split; [assumption|].
    unfold chopAtPosition. rewrite Hf, Hl. unfold hit_log.
    cbn [hitsRemaining with_hits].
    destruct (hitsRemaining l - 1 <=? 0).
    + destruct (is_error (logType l)); reflexivity.
    + reflexivity.
  - split; [apply find_hit_none_iff; assumption|].
    unfold chopAtPosition. rewrite Hf. repeat split.
Qed.

End CanvasFacts.

Module TimerFacts.
Import Canvas.

Lemma run_app (es1 es2 : list Event) (w : Scene * GameStats) :
  run (es1 ++ es2) w = run es2 (run es1 w).
Proof. revert w. induction es1 as [|e es1 IH]; intros w; simpl; auto. Qed.

Lemma run_cons (e : Event) (es : list Event) (w : Scene * GameStats) :
  run (e :: es) w = run es (step e w).
Proof. reflexivity. Qed.

Lemma update_pause_fields (p : bool) (now : Z) (s : Scene) :
  level (update_pause p now s) = level s /\
  gameTime (update_pause p now s) = gameTime s /\
  gameStartTime (update_pause p now s) = gameStartTime s.
Proof.
  unfold update_pause.
  destruct (p && (pauseStartTime s =? 0)); [repeat split|].
  destruct (negb p && (0 <? pauseStartTime s)); repeat split.
Qed.

Lemma update_running_fields (d h : Z) (sp : LogObject) (s : Scene) :
  gameTime (update_running d h sp s) = gameTime s + d /\
  level (update_running d h sp s) =
    Z.max (level s) ((gameTime s + d) / 30000 + 1) /\
  gameStartTime (update_running d h sp s) = gameStartTime s /\
  totalPausedTime (update_running d h sp s) = totalPausedTime s /\
  pauseStartTime (update_running d h sp s) = pauseStartTime s.
Proof.
  unfold update_running.
  destruct (Z.ltb_spec (level s) ((gameTime s + d) / 30000 + 1)) as [Hl|Hl];
  (destruct (_ <? logSpawnTimer s + d);
   destruct (fall_loop _ _ _ _ _); cbn; repeat split; lia).
Qed.

Lemma hit_log_fields (j : nat) (l : LogObject) (s : Scene) (st : GameStats) :
  level (fst (hit_log j l s st)) = level s /\
  gameTime (fst (hit_log j l s st)) = gameTime s /\
  gameStartTime (fst (hit_log j l s st)) = gameStartTime s /\
  totalPausedTime (fst (hit_log j l s st)) = totalPausedTime s /\
  pauseStartTime (fst (hit_log j l s st)) = pauseStartTime s.
Proof.
  unfold hit_log. cbn [hitsRemaining with_hits].
  destruct (hitsRemaining l - 1 <=? 0); [|repeat split].
  destruct (is_error (logType l)); repeat split.
Qed.

Lemma chop_fields (p : bool) (px py : Z) (s : Scene) (st : GameStats) :
  level (fst (chopAtPosition p px py s st)) = level s /\
  gameTime (fst (chopAtPosition p px py s st)) = gameTime s /\
  gameStartTime (fst (chopAtPosition p px py s st)) = gameStartTime s /\
  totalPausedTime (fst (chopAtPosition p px py s st)) = totalPausedTime s /\
  pauseStartTime (fst (chopAtPosition p px py s st)) = pauseStartTime s.
Proof.
  unfold chopAtPosition. destruct p; [repeat split|].
  destruct (find_hit (logs s) px py) as [j|]; [|repeat split].
  destruct (nth_error (logs s) j) as [l|]; [apply hit_log_fields | repeat split].
Qed.

(** The timer fields after a frame are those of the pause bookkeeping. *)
Lemma update_timer (p : bool) (now d h : Z) (sp : LogObject) (s : Scene) :
  gameStartTime (update p now d h sp s) = gameStartTime s /\
  totalPausedTime (update p now d h sp s) = totalPausedTime (update_pause p now s) /\
  pauseStartTime (update p now d h sp s) = pauseStartTime (update_pause p now s).
Proof.
  unfold update. destruct p.
  - split; [apply update_pause_fields | split; reflexivity].
  - destruct (update_running_fields d h sp (update_pause false now s))
      as (_ & _ & H1 & H2 & H3).
    rewrite H1, H2, H3. split; [apply update_pause_fields | split; reflexivity].
Qed.

Lemma step_running_timer (e : Event) (w : Scene * GameStats) :
  running_event e -> pauseStartTime (fst w) = 0 ->
  gameStartTime (fst (step e w)) = gameStartTime (fst w) /\
  totalPausedTime (fst (step e w)) = totalPausedTime (fst w) /\
  pauseStartTime (fst (step e w)) = pauseStartTime (fst w).
Proof.
  destruct e as [p now d h sp | p px py]; simpl; intros Hr Hp.
  - subst p. destruct (update_timer false now d h sp (fst w)) as (H1 & H2 & H3).
    rewrite H1, H2, H3. unfold update_pause. rewrite Hp. simpl. auto.
  - destruct (chop_fields p px py (fst w) (snd w)) as (_ & _ & H1 & H2 & H3). auto.
Qed.

Lemma step_paused_timer (e : Event) (w : Scene * GameStats) :
  paused_event e -> 0 < pauseStartTime (fst w) ->
  gameStartTime (fst (step e w)) = gameStartTime (fst w) /\
  totalPausedTime (fst (step e w)) = totalPausedTime (fst w) /\
  pauseStartTime (fst (step e w)) = pauseStartTime (fst w).
Proof.
  destruct e as [p now d h sp | p px py]; simpl; intros Hr Hp.
  - subst p. destruct (update_timer true now d h sp (fst w)) as (H1 & H2 & H3).
    rewrite H1, H2, H3. unfold update_pause.
    destruct (Z.eqb_spec (pauseStartTime (fst w)) 0); [lia|]. simpl. auto.
  - destruct (chop_fields p px py (fst w) (snd w)) as (_ & _ & H1 & H2 & H3). auto.
Qed.

Lemma run_running_timer (es : list Event) (w : Scene * GameStats) :
  Forall running_event es -> pauseStartTime (fst w) = 0 ->
  gameStartTime (fst (run es w)) = gameStartTime (fst w) /\
  totalPausedTime (fst (run es w)) = totalPausedTime (fst w) /\
  pauseStartTime (fst (run es w)) = pauseStartTime (fst w).
Proof.
  revert w. induction es as [|e es IH]; intros w Hall Hp; simpl; [auto|].
  inversion Hall as [|e' es' He Hes]; subst.
  destruct (step_running_timer e w He Hp) as (H1 & H2 & H3).
  destruct (IH (step e w) Hes ltac:(congruence)) as (G1 & G2 & G3).
  split; [congruence|]. split; congruence.
Qed.

Lemma run_paused_timer (es : list Event) (w : Scene * GameStats) :
  Forall paused_event es -> 0 < pauseStartTime (fst w) ->
  gameStartTime (fst (run es w)) = gameStartTime (fst w) /\
  totalPausedTime (fst (run es w)) = totalPausedTime (fst w) /\
  pauseStartTime (fst (run es w)) = pauseStartTime (fst w).
Proof.
  revert w. induction es as [|e es IH]; intros w Hall Hp; simpl; [auto|].
  inversion Hall as [|e' es' He Hes]; subst.
  destruct (step_paused_timer e w He Hp) as (H1 & H2 & H3).
  destruct (IH (step e w) Hes ltac:(congruence)) as (G1 & G2 & G3).
  split; [congruence|]. split; congruence.
Qed.

(** C5: the elapsed active time of [updateUI].  While running it is
    [now - gameStartTime - totalPausedTime]; while paused (once the pause
    frame has recorded [pauseStartTime]) it is frozen at
    [pauseStartTime - gameStartTime - totalPausedTime]; a paused frame after
    the pause is recorded changes nothing; and after [startGameTimer(t0)],
    running frames, a pause recorded at [t1], paused frames, the resume
    frame at [t2] and running frames, the elapsed active time is the wall
    clock elapsed time minus exactly the paused span [t2 - t1]. *)
Theorem elapsed_active_time_accounting :
  (forall s now, 0 < gameStartTime s ->
     elapsedActiveMs true false now s =
       Some (now - gameStartTime s - totalPausedTime s)) /\
  (forall s now, 0 < gameStartTime s -> 0 < pauseStartTime s ->
     elapsedActiveMs true true now s =
       Some (pauseStartTime s - gameStartTime s - totalPausedTime s)) /\
  (forall s now, 0 < pauseStartTime s -> update_pause true now s = s) /\
  (forall s st t0 t1 d1 h1 sp1 t2 d2 h2 sp2 before during after now,
     0 < t0 -> 0 < t1 ->
     Forall running_event before -> Forall paused_event during ->
     Forall running_event after ->
     elapsedActiveMs true false now
       (fst (run (before ++ Tick true t1 d1 h1 sp1 :: during ++
                  Tick false t2 d2 h2 sp2 :: after)
                 (startGameTimer t0 s, st)))
     = Some ((now - t0) - (t2 - t1))).
Proof.
  split; [|split; [|split]].
  - intros s now H. unfold elapsedActiveMs.
    destruct (Z.ltb_spec 0 (gameStartTime s)); [reflexivity | lia].
  - intros s now H1 H2. unfold elapsedActiveMs.
    destruct (Z.ltb_spec 0 (gameStartTime s)); [|lia].
    destruct (Z.ltb_spec 0 (pauseStartTime s)); [reflexivity | lia].
  - intros s now H. unfold update_pause.
    destruct (Z.eqb_spec (pauseStartTime s) 0); [lia | reflexivity].
  - intros s st t0 t1 d1 h1 sp1 t2 d2 h2 sp2 before during after now
           H0 H1 Hb Hd Ha.
    rewrite run_app, run_cons, run_app, run_cons.
    set (w0 := (startGameTimer t0 s, st)).
    set (w1 := run before w0).
    destruct (run_running_timer before w0 Hb eq_refl) as (B1 & B2 & B3).
    set (w2 := step (Tick true t1 d1 h1 sp1) w1).
    assert (P1 : gameStartTime (fst w2) = t0 /\ totalPausedTime (fst w2) = 0 /\
                 pauseStartTime (fst w2) = t1).
    { unfold w2. cbn [step fst].
      destruct (update_timer true t1 d1 h1 sp1 (fst w1)) as (U1 & U2 & U3).
      rewrite U1, U2, U3. unfold update_pause.
      fold w0 in B1, B2, B3. fold w1 in B1, B2, B3. rewrite B3. simpl.
      rewrite B1, B2. auto. }
    destruct P1 as (P1 & P2 & P3).
    set (w3 := run during w2).
    destruct (run_paused_timer during w2 Hd ltac:(lia)) as (D1 & D2 & D3).
    fold w3 in D1, D2, D3.
    set (w4 := step (Tick false t2 d2 h2 sp2) w3).
    assert (Q : gameStartTime (fst w4) = t0 /\
                totalPausedTime (fst w4) = t2 - t1 /\
                pauseStartTime (fst w4) = 0).
    { unfold w4. cbn [step fst].
      destruct (update_timer false t2 d2 h2 sp2 (fst w3)) as (U1 & U2 & U3).
      rewrite U1, U2, U3. unfold update_pause.
      rewrite D3, P3. simpl.
      destruct (Z.ltb_spec 0 t1); [|lia]. simpl. lia. }
    destruct Q as (Q1 & Q2 & Q3).
    destruct (run_running_timer after w4 Ha Q3) as (A1 & A2 & A3).
    unfold elapsedActiveMs. rewrite A1, A2, Q1, Q2.
    destruct (Z.ltb_spec 0 t0); [|lia]. simpl. f_equal; lia.
Qed.

(** Scenario D: started at 1000, paused at 3000 and resumed at 8000 (5000 ms
    paused), the elapsed active time at 10000 is 9000 - 5000. *)
Lemma elapsed_active_time_accounting_witness :
  elapsedActiveMs true false 10000
    (fst (run ([Tick false 2000 16 600 (plain_log 2 50 100 (-50))] ++
               Tick true 3000 16 600 (plain_log 2 50 100 (-50)) ::
               [Tick true 5000 16 600 (plain_log 2 50 100 (-50));
                Click true 100 100] ++
               Tick false 8000 16 600 (plain_log 2 50 100 (-50)) ::
               [Tick false 9000 16 600 (plain_log 2 50 100 (-50))])
              (startGameTimer 1000 initialScene, no_stats)))
  = Some ((10000 - 1000) - (8000 - 3000)).
Proof.
  destruct elapsed_active_time_accounting as (_ & _ & _ & H).
  apply H.
  - lia.
  - lia.
  - repeat constructor.
  - repeat constructor.
  - repeat constructor.
Defined.

(** C6: the level is [floor(gameTime / 30000) + 1] at every point of a
    session started by [resetGame], provided frame deltas are non-negative
    ([gameTime] is the active play time: it only advances on frames that
    are not paused); and no frame or click ever lowers the level. *)
Theorem level_tracks_active_time :
  (forall es w, level (fst w) <= level (fst (run es w))) /\
  (forall es now s st, Forall tick_delta_ok es ->
     0 <= gameTime (fst (run es (resetGame now s, st))) /\
     level (fst (run es (resetGame now s, st))) =
       gameTime (fst (run es (resetGame now s, st))) / 30000 + 1).
Proof.
  assert (Step_mono : forall e w, level (fst w) <= level (fst (step e w))).
  { intros [p now d h sp | p px py] w; simpl.
    - unfold update. destruct p.
      + destruct (update_pause_fields true now (fst w)) as (L & _). lia.
      + destruct (update_pause_fields false now (fst w)) as (L & _ & _).
        destruct (update_running_fields d h sp (update_pause false now (fst w)))
          as (_ & L2 & _). lia.
    - destruct (chop_fields p px py (fst w) (snd w)) as (L & _). lia. }
  assert (Step_inv : forall e w, tick_delta_ok e ->
            0 <= gameTime (fst w) -> level (fst w) = gameTime (fst w) / 30000 + 1 ->
            0 <= gameTime (fst (step e w)) /\
            level (fst (step e w)) = gameTime (fst (step e w)) / 30000 + 1).
  { intros [p now d h sp | p px py] w Hd Hg Hl; simpl in *.
    - unfold update. destruct p.
      + destruct (update_pause_fields true now (fst w)) as (L & G & _). rewrite L, G. auto.
      + destruct (update_pause_fields false now (fst w)) as (L & G & _).
        destruct (update_running_fields d h sp (update_pause false now (fst w)))
          as (G2 & L2 & _).
        rewrite G2, L2, L, G. split; [lia|].
        assert (gameTime (fst w) / 30000 <= (gameTime (fst w) + d) / 30000)
          by (apply Z.div_le_mono; lia).
        lia.
    - destruct (chop_fields p px py (fst w) (snd w)) as (L & G & _). rewrite L, G. auto. }
  split.
  - intros es. induction es as [|e es IH]; intros w; simpl; [lia|].
    specialize (IH (step e w)). specialize (Step_mono e w). lia.
  - intros es now s st Hall.
    assert (Hinit : 0 <= gameTime (fst (resetGame now s, st)) /\
              level (fst (resetGame now s, st)) =
                gameTime (fst (resetGame now s, st)) / 30000 + 1)
      by (simpl; split; [lia | reflexivity]).
    revert Hinit. generalize (resetGame now s, st) as w.
    induction Hall as [|e es He Hes IH]; intros w [Hg Hl]; simpl; [auto|].
    apply IH. apply Step_inv; assumption.
Qed.

(** A session of two frames of 20000 ms each reaches level 2. *)
Lemma level_tracks_active_time_witness :
  level (fst (run [Tick false 20000 20000 600 (plain_log 2 50 100 (-50));
                   Click false 5 5;
                   Tick false 40000 20000 600 (plain_log 2 50 100 (-50))]
                  (resetGame 1 initialScene, no_stats))) = 2 /\
  (0 <= gameTime (fst (run [Tick false 20000 20000 600 (plain_log 2 50 100 (-50));
                   Click false 5 5;
                   Tick false 40000 20000 600 (plain_log 2 50 100 (-50))]
                  (resetGame 1 initialScene, no_stats))) /\
   level (fst (run [Tick false 20000 20000 600 (plain_log 2 50 100 (-50));
                   Click false 5 5;
                   Tick false 40000 20000 600 (plain_log 2 50 100 (-50))]
                  (resetGame 1 initialScene, no_stats))) =
   gameTime (fst (run [Tick false 20000 20000 600 (plain_log 2 50 100 (-50));
                   Click false 5 5;
                   Tick false 40000 20000 600 (plain_log 2 50 100 (-50))]
                  (resetGame 1 initialScene, no_stats))) / 30000 + 1).
Proof.
  split; [vm_compute; reflexivity|].
  destruct level_tracks_active_time as (_ & H).
  apply H. repeat constructor; simpl; lia.
Defined.

End TimerFacts.

Module ManagerFacts.
Import Manager.

Lemma set_achievements_self (s : GameState) :
  set_achievements s (achievements s) = s.
Proof. destruct s; reflexivity. Qed.

(** [updateAchievementProgress] only replaces the achievement array. *)
Lemma uap_shape (env : Env) (i : string) (p : Z) (s : GameState) :
  exists a, updateAchievementProgress env i p s = set_achievements s a.
Proof.
  unfold updateAchievementProgress.
  destruct (find_index _ (achievements s)) as [k|];
    [destruct (nth_error (achievements s) k) as [b|];
     [destruct (unlocked b)|]|];
    eauto using set_achievements_self.
Qed.

Lemma uap_bestCombo (env : Env) (i : string) (p : Z) (s : GameState) :
  bestCombo (updateAchievementProgress env i p s) = bestCombo s.
Proof. destruct (uap_shape env i p s) as [a ->]. reflexivity. Qed.

Lemma uap_currentCombo (env : Env) (i : string) (p : Z) (s : GameState) :
  currentCombo (updateAchievementProgress env i p s) = currentCombo s.
Proof. destruct (uap_shape env i p s) as [a ->]. reflexivity. Qed.

Lemma saveState_cases (env : Env) (s : GameState) :
  saveState env s = s \/ saveState env s = set_lastUpdated s (now env).
Proof. unfold saveState. destruct (storageAvailable env); auto. Qed.

Lemma saveState_bestCombo (env : Env) (s : GameState) :
  bestCombo (saveState env s) = bestCombo s.
Proof. destruct (saveState_cases env s) as [-> | ->]; reflexivity. Qed.

Lemma saveState_currentCombo (env : Env) (s : GameState) :
  currentCombo (saveState env s) = currentCombo s.
Proof. destruct (saveState_cases env s) as [-> | ->]; reflexivity. Qed.

Lemma saveState_achievements (env : Env) (s : GameState) :
  achievements (saveState env s) = achievements s.
Proof. destruct (saveState_cases env s) as [-> | ->]; reflexivity. Qed.

(** The combo counters after [chopLog]: unchanged (unknown log or damage
    only), or the destroy increment with the best combo raised. *)
Lemma chopLog_combo (env : Env) (s : GameState) (logId : string)
    (rt : option Z) :
  exists s', snd (chopLog env (Some s) logId rt) = Some s' /\
    ((currentCombo s' = currentCombo s /\ bestCombo s' = bestCombo s) \/
     (currentCombo s' = currentCombo s + 1 /\
      bestCombo s' = Z.max (bestCombo s) (currentCombo s + 1))).
Proof.
  unfold chopLog.
  destruct (find_index _ (logs s)) as [i|]; [|exists s; auto].
  destruct (nth_error (logs s) i) as [l|]; [|exists s; auto].
  cbn [health].
  destruct (health l - 1 <=? 0).
  - eexists. split; [reflexivity|]. right.
    rewrite saveState_bestCombo, saveState_currentCombo. cbn [set_stats bestCombo currentCombo].
    destruct (type l); rewrite ?uap_bestCombo, ?uap_currentCombo; cbn;
      (split; [reflexivity|]);
      (destruct (Z.ltb_spec (bestCombo s) (currentCombo s + 1)); lia).
  - eexists. split; [reflexivity|]. left. split; reflexivity.
Qed.

(** An unlocked achievement is never touched by
    [updateAchievementProgress]. *)
Lemma uap_keeps_unlocked (env : Env) (i : string) (p : Z) (s : GameState)
    (k : nat) (a : Achievement) :
  nth_error (achievements s) k = Some a -> unlocked a = true ->
  nth_error (achievements (updateAchievementProgress env i p s)) k = Some a.
Proof.
  intros Hk Ha. unfold updateAchievementProgress.
  destruct (find_index _ (achievements s)) as [j|]; [|assumption].
  destruct (nth_error (achievements s) j) as [b|] eqn:Hb; [|assumption].
  destruct (unlocked b) eqn:Ub; [assumption|].
  cbn [achievements set_achievements].
  destruct (Nat.eq_dec k j) as [->|Hne]; [congruence|].
  rewrite replace_at_nth_other; [assumption| |assumption].
  apply nth_error_Some. congruence.
Qed.

Lemma chopLog_keeps_unlocked (env : Env) (s s' : GameState) (logId : string)
    (rt : option Z) (k : nat) (a : Achievement) :
  snd (chopLog env (Some s) logId rt) = Some s' ->
  nth_error (achievements s) k = Some a -> unlocked a = true ->
  nth_error (achievements s') k = Some a.
Proof.
  intros Hc Hk Ha. unfold chopLog in Hc.
  destruct (find_index _ (logs s)) as [i|]; [|cbn in Hc; congruence].
  destruct (nth_error (logs s) i) as [l|]; [|cbn in Hc; congruence].
  cbn [health] in Hc.
  destruct (health l - 1 <=? 0); cbn [snd] in Hc; injection Hc as <-.
  - rewrite saveState_achievements. cbn [set_stats achievements].
    destruct (type l); repeat apply uap_keeps_unlocked; assumption.
  - assumption.
Qed.

Lemma resetCombo_counters (env : Env) (s : GameState) :
  exists s', resetCombo env (Some s) = Some s' /\
    currentCombo s' = 0 /\ bestCombo s' = bestCombo s.
Proof.
  unfold resetCombo.
  destruct (Z.eqb_spec (currentCombo s) 0) as [E|E].
  - exists s. auto.
  - eexists. split; [reflexivity|].
    rewrite saveState_currentCombo, saveState_bestCombo. split; reflexivity.
Qed.

(** C3 (counterexample): [updateGameSession] stores
    [max(args.maxCombo, args.combo)] without reading the stored best combo,
    so a session update can lower it: from best combo 10, an update with
    combo 0 and maxCombo 0 stores 0. *)
Lemma updateGameSession_lowers_maxCombo :
  Sessions.maxCombo Sessions.session_at_10 = 10 /\
  Sessions.maxCombo
    (Sessions.updateGameSession (Sessions.mkUpdateArgs 0 1 0 0 None)
       Sessions.session_at_10) = 0.
Proof. split; reflexivity. Qed.

(** C3 (amended): over any sequence of [chopLog] and [resetCombo] calls the
    best combo never decreases, and [0 <= bestCombo], [currentCombo <=
    bestCombo] is preserved (it holds for [createInitialGameState]); a miss
    ([resetCombo]) sets the combo to 0 and keeps the best combo (from combo
    10 the best combo stays 10).  [updateGameSession] stores a best combo at
    least the stored combo, but it overwrites the stored best combo with
    the caller's value, so it is not monotone. *)
Theorem best_combo_invariants :
  (forall es s, exists s', run es (Some s) = Some s' /\
     bestCombo s <= bestCombo s' /\
     (0 <= bestCombo s /\ currentCombo s <= bestCombo s ->
      0 <= bestCombo s' /\ currentCombo s' <= bestCombo s')) /\
  (forall env s, exists s', resetCombo env (Some s) = Some s' /\
     currentCombo s' = 0 /\ bestCombo s' = bestCombo s) /\
  (forall args d,
     Sessions.combo (Sessions.updateGameSession args d) <=
     Sessions.maxCombo (Sessions.updateGameSession args d)).
Proof.
  split; [|split; [exact resetCombo_counters|]].
  - intros es. induction es as [|e es IH]; intros s; simpl.
    + exists s. split; [reflexivity|]. split; [lia | auto].
    + assert (Hstep : exists s1, step e (Some s) = Some s1 /\
                bestCombo s <= bestCombo s1 /\
                (0 <= bestCombo s /\ currentCombo s <= bestCombo s ->
                 0 <= bestCombo s1 /\ currentCombo s1 <= bestCombo s1)).
      { destruct e as [env i r | env]; simpl.
        - destruct (chopLog_combo env s i r) as (s1 & E & [(C & B) | (C & B)]);
            exists s1; (split; [exact E|]); rewrite C, B; lia.
        - destruct (resetCombo_counters env s) as (s1 & E & C & B).
          exists s1. split; [exact E|]. rewrite C, B. lia. }
      destruct Hstep as (s1 & E & Hle & Hinv). rewrite E.
      destruct (IH s1) as (s2 & E2 & Hle2 & Hinv2).
      exists s2. split; [exact E2|]. split; [lia|]. auto.
  - intros args d. simpl. lia.
Qed.

(** Scenario C: from combo 10 (best 10) a miss leaves combo 0, best 10;
    and a state satisfying the invariant still does after three chops. *)
Lemma best_combo_invariants_witness :
  resetCombo sample_env (Some (sample_state 10 10 [] [])) =
    Some (set_lastUpdated (set_currentCombo (sample_state 10 10 [] []) 0) 5) /\
  (exists s', run [Chop sample_env "a" None; Chop sample_env "a" None;
                   Reset sample_env]
                  (Some (sample_state 3 4 [sample_log "a" 2 false] [])) = Some s' /\
     bestCombo (sample_state 3 4 [sample_log "a" 2 false] []) <= bestCombo s' /\
     (0 <= bestCombo (sample_state 3 4 [sample_log "a" 2 false] []) /\
      currentCombo (sample_state 3 4 [sample_log "a" 2 false] []) <=
        bestCombo (sample_state 3 4 [sample_log "a" 2 false] []) ->
      0 <= bestCombo s' /\ currentCombo s' <= bestCombo s')).
Proof.
  split; [reflexivity|].
  destruct best_combo_invariants as (H & _).
  apply H.
Defined.

(** C7 (counterexample): progress is overwritten, not accumulated.  With
    [combo_master] at progress 7 and the combo broken, the next chop sets
    its progress to the new combo, 1. *)
Lemma combo_master_progress_drops :
  map progress (achievements
    (sample_state 0 7 [sample_log "a" 1 false] [combo_master_at 7])) = [7] /\
  option_map (fun s => map progress (achievements s))
    (snd (chopLog sample_env
            (Some (sample_state 0 7 [sample_log "a" 1 false] [combo_master_at 7]))
            "a" None)) = Some [1].
Proof. split; vm_compute; reflexivity. Qed.

(** C7 (amended): an unlocked achievement is left exactly as it is (same
    progress, same unlock time) by every later [updateAchievementProgress]
    and [chopLog]; a locked one gets progress [min(value, maxProgress)]
    (overwritten, so it may go down) and is unlocked, stamped with the
    current time, exactly when that reaches [maxProgress]. *)
Theorem achievement_progress_updates :
  (forall env i p s k a,
     nth_error (achievements s) k = Some a -> unlocked a = true ->
     nth_error (achievements (updateAchievementProgress env i p s)) k = Some a) /\
  (forall env s s' logId rt k a,
     snd (chopLog env (Some s) logId rt) = Some s' ->
     nth_error (achievements s) k = Some a -> unlocked a = true ->
     nth_error (achievements s') k = Some a) /\
  (forall env i p s k a,
     find_index (fun b => String.eqb (ach_id b) i) (achievements s) = Some k ->
     nth_error (achievements s) k = Some a -> unlocked a = false ->
     exists a', nth_error (achievements (updateAchievementProgress env i p s)) k = Some a' /\
       ach_id a' = ach_id a /\
       progress a' = Z.min p (maxProgress a) /\
       unlocked a' = (maxProgress a <=? Z.min p (maxProgress a)) /\
       unlockedAt a' = (if unlocked a' then Some (now env) else unlockedAt a)).
Proof.
  split; [exact uap_keeps_unlocked|].
  split; [intros; eapply chopLog_keeps_unlocked; eassumption|].
  intros env i p s k a F N U.
  unfold updateAchievementProgress. rewrite F, N, U.
  cbn [achievements set_achievements].
  rewrite replace_at_nth_same by (apply nth_error_Some; congruence).
  eexists. split; [reflexivity|].
  destruct (maxProgress a <=? Z.min p (maxProgress a)); simpl; auto.
Qed.

(** An unlocked [combo_master] survives a chop that would otherwise set its
    progress to the new combo. *)
Lemma achievement_progress_updates_witness :
  exists s', snd (chopLog sample_env
                    (Some (sample_state 9 9 [sample_log "a" 1 false]
                             [combo_master_unlocked])) "a" None) = Some s' /\
    nth_error (achievements s') 0 = Some combo_master_unlocked.
Proof.
  eexists. split; [reflexivity|].
  destruct achievement_progress_updates as (_ & H & _).
  eapply (H sample_env
            (sample_state 9 9 [sample_log "a" 1 false] [combo_master_unlocked])
            _ "a"%string None 0%nat combo_master_unlocked); reflexivity.
Defined.

Lemma chopLog_none_found (env : Env) (s : GameState) (logId : string)
    (rt : option Z) :
  (forall l, In l (logs s) -> id l = logId -> chopped l = true) ->
  chopLog env (Some s) logId rt = (failResult, Some s).
Proof.
  intros H. unfold chopLog.
  replace (find_index (fun l => String.eqb (id l) logId && negb (chopped l))
             (logs s)) with (@None nat); [reflexivity|].
  symmetry. apply find_index_none. intros l Hin.
  destruct (String.eqb_spec (id l) logId) as [E|E]; [|reflexivity].
  rewrite (H l Hin E). reflexivity.
Qed.

(** C9: a chop whose id names no log that is still unchopped (every log
    with that id, if any, is already chopped) returns the failure result
    [{success: false, points: 0, comboMultiplier: 1}] and leaves the whole
    game state (score, combos, logs, achievements, stats, timestamp)
    unchanged; with no game state it also returns the failure result. *)
Theorem chopLog_unknown_target_noop (env : Env) (gs : option GameState)
    (logId : string) (rt : option Z)
    (H : forall s, gs = Some s ->
         forall l, In l (logs s) -> id l = logId -> chopped l = true) :
  chopLog env gs logId rt = (failResult, gs) /\
  success failResult = false /\ rpoints failResult = 0 /\
  comboMultiplier failResult = 1.
Proof.
  split; [|repeat split].
  destruct gs as [s|]; [|reflexivity].
  apply chopLog_none_found. exact (H s eq_refl).
Qed.

(** A second chop of log "a", already chopped, and a chop of a missing
    id "b", change nothing. *)
Lemma chopLog_unknown_target_noop_witness :
  chopLog sample_env (Some (sample_state 2 2 [sample_log "a" 0 true] []))
    "a" None = (failResult, Some (sample_state 2 2 [sample_log "a" 0 true] [])) /\
  chopLog sample_env (Some (sample_state 2 2 [sample_log "a" 0 true] []))
    "b" (Some 300) = (failResult, Some (sample_state 2 2 [sample_log "a" 0 true] [])).
Proof.
  split.
  - apply (chopLog_unknown_target_noop sample_env
             (Some (sample_state 2 2 [sample_log "a" 0 true] [])) "a"%string None).
    intros s E l Hin _. injection E as <-.
    destruct Hin as [<-|[]]. reflexivity.
  - apply (chopLog_unknown_target_noop sample_env
             (Some (sample_state 2 2 [sample_log "a" 0 true] [])) "b"%string (Some 300)).
    intros s E l Hin Hid. injection E as <-.
    destruct Hin as [<-|[]]. discriminate Hid.
Defined.

(** C10 (counterexample): [resetCombo] calls [saveState], which also sets
    [lastUpdated = Date.now()]: from combo 3 at time 5 the state differs
    from the input in [lastUpdated] (0 becomes 5), not only in
    [currentCombo]. *)
Lemma resetCombo_touches_lastUpdated :
  resetCombo sample_env (Some (sample_state 3 3 [] [])) <>
    Some (set_currentCombo (sample_state 3 3 [] []) 0).
Proof. vm_compute. discriminate. Qed.

(** C10 (amended): [resetCombo] sets [currentCombo] to 0 and leaves
    player, score, level, total chops, best combo, logs, power-ups,
    achievements and stats unchanged; [saveState] sets [lastUpdated] to
    the current time when [localStorage] is available and leaves it
    unchanged otherwise.  When
    [currentCombo] is already 0, or there is no game state, it changes
    nothing at all. *)
Theorem resetCombo_frame (env : Env) (gs : option GameState) :
  (gs = None -> resetCombo env gs = None) /\
  (forall s, gs = Some s ->
     (currentCombo s = 0 -> resetCombo env gs = Some s) /\
     exists s', resetCombo env gs = Some s' /\
       currentCombo s' = 0 /\
       playerId s' = playerId s /\ playerName s' = playerName s /\
       score s' = score s /\ level s' = level s /\
       totalChops s' = totalChops s /\ bestCombo s' = bestCombo s /\
       logs s' = logs s /\ powerUps s' = powerUps s /\
       achievements s' = achievements s /\ stats s' = stats s /\
       (currentCombo s <> 0 ->
        lastUpdated s' = (if storageAvailable env then now env else lastUpdated s))).
Proof.
  split; [intros ->; reflexivity|].
  intros s ->. unfold resetCombo.
  destruct (Z.eqb_spec (currentCombo s) 0) as [E|E].
  - split; [reflexivity|]. exists s. repeat split; auto. intros C; contradiction.
  - split; [intros; contradiction|].
    eexists. split; [reflexivity|].
    unfold saveState. destruct (storageAvailable env); cbn; repeat split.
Qed.

(** Combo 3 at time 5: combo 0, time stamp 5, all else kept; and a second
    call is a no-op. *)
Lemma resetCombo_frame_witness :
  resetCombo sample_env (Some (sample_state 0 3 [] [])) =
    Some (sample_state 0 3 [] []) /\
  (exists s', resetCombo sample_env (Some (sample_state 3 3 [] [])) = Some s' /\
     currentCombo s' = 0 /\
     playerId s' = playerId (sample_state 3 3 [] []) /\
     playerName s' = playerName (sample_state 3 3 [] []) /\
     score s' = score (sample_state 3 3 [] []) /\
     level s' = level (sample_state 3 3 [] []) /\
     totalChops s' = totalChops (sample_state 3 3 [] []) /\
     bestCombo s' = bestCombo (sample_state 3 3 [] []) /\
     logs s' = logs (sample_state 3 3 [] []) /\
     powerUps s' = powerUps (sample_state 3 3 [] []) /\
     achievements s' = achievements (sample_state 3 3 [] []) /\
     stats s' = stats (sample_state 3 3 [] []) /\
     (currentCombo (sample_state 3 3 [] []) <> 0 ->
      lastUpdated s' = (if storageAvailable sample_env then now sample_env
                        else lastUpdated (sample_state 3 3 [] [])))).
Proof.
  split.
  - apply (resetCombo_frame sample_env (Some (sample_state 0 3 [] [])));
      reflexivity.
  - apply (resetCombo_frame sample_env (Some (sample_state 3 3 [] [])));
      reflexivity.
Defined.

End ManagerFacts.

(** ** The achievement check of the hook *)

Module HookFacts.

Import Hook.

Lemma unlock_loop_ids (pl : option Player) (st : Stats) (all : list AchievementDef)
    (x : string) :
  In x (unlock_loop pl st all) -> In x (map ad_id all).
Proof.
  induction all as [|a rest IH]; simpl; [auto|].
  destruct (match pl with Some p => includes (achievements p) (ad_id a)
            | None => false end); [auto|].
  destruct (shouldUnlock pl st a); simpl; [intros [E|H]; auto|auto].
Qed.

Lemma unlock_loop_member (p : Player) (st : Stats) (all : list AchievementDef)
    (a : AchievementDef) :
  NoDup (map ad_id all) -> In a all ->
  includes (achievements p) (ad_id a) = false ->
  (In (ad_id a) (unlock_loop (Some p) st all) <->
   shouldUnlock (Some p) st a = true).
Proof.
  induction all as [|b rest IH]; intros Hnd Hin Hinc; [destruct Hin|].
  simpl in Hnd. inversion Hnd as [|? ? Hnot Hnd']. subst.
  cbn [unlock_loop].
  destruct Hin as [<-|Hin].
  - rewrite Hinc.
    destruct (shouldUnlock (Some p) st b) eqn:Hs.
    + split; [reflexivity|intros _; left; reflexivity].
    + split; [|discriminate].
      intros H. exfalso. apply Hnot. eapply unlock_loop_ids. exact H.
  - assert (Hne : ad_id b <> ad_id a).
    { intros E. apply Hnot. rewrite E. apply in_map. exact Hin. }
    rewrite <- (IH Hnd' Hin Hinc).
    destruct (includes (achievements p) (ad_id b)); [reflexivity|].
    destruct (shouldUnlock (Some p) st b); [|reflexivity].
    simpl. split; [intros [E|H]; [contradiction|exact H]|auto].
Qed.

Lemma shouldUnlock_total_chops (p : Player) (st : Stats) (a : AchievementDef) :
  rtype (requirement a) = "total_chops"%string ->
  shouldUnlock (Some p) st a = (rvalue (requirement a) <=? totalChops p + chops st).
Proof. intros E. unfold shouldUnlock. rewrite E. reflexivity. Qed.

(** C8: for a catalogue with distinct ids and an achievement [a] of it that
    the player does not have yet, whose requirement type is
    ["total_chops"], [checkAndUnlockAchievements] (with a player id, the
    catalogue and the player loaded) unlocks [a] exactly when the player's
    lifetime [totalChops] plus the session's [chops] is at least the
    requirement's value. *)
Theorem total_chops_unlock_iff (pid : string) (all : list AchievementDef)
    (p : Player) (st : Stats) (a : AchievementDef)
    (Hnd : NoDup (map ad_id all)) (Hin : In a all)
    (Hnew : includes (achievements p) (ad_id a) = false)
    (Htype : rtype (requirement a) = "total_chops"%string) :
  exists ids, checkAndUnlockAchievements (Some pid) (Some all) (Some p) st = Some ids /\
    (In (ad_id a) ids <-> rvalue (requirement a) <= totalChops p + chops st).
Proof.
  eexists. split; [reflexivity|].
  rewrite (unlock_loop_member p st all a Hnd Hin Hnew).
  rewrite (shouldUnlock_total_chops p st a Htype).
  apply Z.leb_le.
Qed.

(** Thousand Cuts: 999 lifetime chops and 1 in this game unlock it, 999 and
    0 do not. *)
Lemma total_chops_unlock_iff_witness :
  (exists ids, checkAndUnlockAchievements (Some "p1"%string) (Some [thousand_cuts])
                 (Some (sample_player 999)) (session_stats 1) = Some ids /\
     (In (ad_id thousand_cuts) ids <->
      rvalue (requirement thousand_cuts) <=
        totalChops (sample_player 999) + chops (session_stats 1))) /\
  checkAndUnlockAchievements (Some "p1"%string) (Some [thousand_cuts])
    (Some (sample_player 999)) (session_stats 1) = Some ["thousand_cuts"%string] /\
  checkAndUnlockAchievements (Some "p1"%string) (Some [thousand_cuts])
    (Some (sample_player 999)) (session_stats 0) = Some [].
Proof.
  split; [|split; reflexivity].
  apply total_chops_unlock_iff.
  - repeat constructor. simpl. tauto.
  - left. reflexivity.
  - reflexivity.
  - reflexivity.
Defined.

(** The copy of the hook in [src/unnamed/part_000] has no [total_chops]
    case: it never unlocks such an achievement, whatever the counts. *)
Lemma part_000_never_unlocks_total_chops (st : Stats) (a : AchievementDef) :
  rtype (requirement a) = "total_chops"%string ->
  shouldUnlock_part_000 st a = false.
Proof. intros E. unfold shouldUnlock_part_000. rewrite E. reflexivity. Qed.

End HookFacts.

(** ** The other methods of [GameManager] *)

Module ManagerOpsFacts.

Import Manager ManagerOps ManagerFacts.

(** *** List helpers *)

Lemma replace_at_cons {A} (i : nat) (a b : A) (l : list A) :
  replace_at (S i) a (b :: l) = b :: replace_at i a l.
Proof. reflexivity. Qed.

Lemma replace_at_same {A} (i : nat) (a : A) (l : list A) :
  nth_error l i = Some a -> replace_at i a l = l.
Proof.
  revert i. induction l as [|b l IH]; intros [|i] N; try discriminate.
  - injection N as ->. reflexivity.
  - rewrite replace_at_cons. cbn in N. rewrite (IH i N). reflexivity.
Qed.

Lemma replace_at_twice {A} (i : nat) (a b : A) (l : list A) :
  (i < List.length l)%nat -> replace_at i a (replace_at i b l) = replace_at i a l.
Proof.
  revert i. induction l as [|c l IH]; intros [|i] H; cbn in H; try lia.
  - reflexivity.
  - rewrite !replace_at_cons, IH by lia. reflexivity.
Qed.

Lemma in_replace_at {A} (i : nat) (a x : A) (l : list A) :
  In x (replace_at i a l) -> x = a \/ In x l.
Proof.
  revert i. induction l as [|b l IH]; intros [|i]; cbn.
  - intros [->|[]]; auto.
  - intros [->|[]]; auto.
  - intros [->|H]; auto.
  - intros [->|H]; auto. destruct (IH i H); auto.
Qed.

Lemma map_replace_same {A B} (f : A -> B) (i : nat) (a b : A) (l : list A) :
  nth_error l i = Some b -> f a = f b -> map f (replace_at i a l) = map f l.
Proof.
  revert i. induction l as [|c l IH]; intros [|i] N E; try discriminate.
  - injection N as ->. cbn. rewrite E. reflexivity.
  - rewrite replace_at_cons. cbn in *. rewrite (IH i N E). reflexivity.
Qed.

Lemma find_index_replace {A} (f : A -> bool) (i : nat) (a : A) (l : list A) :
  find_index f l = Some i -> f a = true -> find_index f (replace_at i a l) = Some i.
Proof.
  revert i. induction l as [|b l IH]; intros i F Fa; [discriminate|].
  cbn in F. destruct (f b) eqn:Fb.
  - injection F as <-. cbn. rewrite Fa. reflexivity.
  - destruct (find_index f l) as [j|] eqn:E; [|discriminate].
    injection F as <-. rewrite replace_at_cons. cbn. rewrite Fb, (IH j eq_refl Fa).
    reflexivity.
Qed.

Lemma find_index_find {A} (f : A -> bool) (l : list A) :
  match find_index f l with Some i => nth_error l i | None => None end = find f l.
Proof.
  induction l as [|a l IH]; cbn; [reflexivity|].
  destruct (f a); [reflexivity|].
  destruct (find_index f l); exact IH.
Qed.

Lemma find_filter {A} (f g : A -> bool) (l : list A) :
  (forall a, f a = true -> g a = true) -> find f (filter g l) = find f l.
Proof.
  intros Hfg. induction l as [|a l IH]; cbn; [reflexivity|].
  destruct (g a) eqn:G; cbn.
  - destruct (f a); [reflexivity|exact IH].
  - destruct (f a) eqn:F; [|exact IH].
    rewrite (Hfg a F) in G. discriminate.
Qed.

Lemma nodup_map_same {A B} (f : A -> B) (l : list A) (x y : A) :
  NoDup (map f l) -> In x l -> In y l -> f x = f y -> x = y.
Proof.
  induction l as [|z l IH]; intros Hnd Hx Hy E; [destruct Hx|].
  cbn in Hnd. inversion Hnd as [|? ? Hnot Hnd']. subst.
  destruct Hx as [<-|Hx], Hy as [<-|Hy]; auto.
  - exfalso. apply Hnot. rewrite E. apply in_map. exact Hy.
  - exfalso. apply Hnot. rewrite <- E. apply in_map. exact Hx.
Qed.

Lemma nodup_snoc {A} (l : list A) (x : A) :
  NoDup l -> ~ In x l -> NoDup (l ++ [x]).
Proof.
  intros Hnd Hx. apply NoDup_app; [exact Hnd| constructor; [intros []|constructor]|].
  intros a Ha [<-|[]]. contradiction.
Qed.

(** *** Facts about the state the methods leave *)

Lemma saveState_logs (env : Env) (s : GameState) :
  logs (saveState env s) = logs s.
Proof. destruct (saveState_cases env s) as [-> | ->]; reflexivity. Qed.

Lemma saveState_powerUps (env : Env) (s : GameState) :
  powerUps (saveState env s) = powerUps s.
Proof. destruct (saveState_cases env s) as [-> | ->]; reflexivity. Qed.

Lemma set_logs_self (s : GameState) : set_logs s (logs s) = s.
Proof. destruct s; reflexivity. Qed.

Lemma logs_set_logs (s : GameState) (ls : list LogItem) :
  logs (set_logs s ls) = ls.
Proof. reflexivity. Qed.

Lemma set_logs_twice (s : GameState) (a b : list LogItem) :
  set_logs (set_logs s a) b = set_logs s b.
Proof. reflexivity. Qed.

Lemma with_health_self (l : LogItem) : with_health l (health l) = l.
Proof. destruct l; reflexivity. Qed.

(** A chop that only damages the log: [failResult], the log's health
    lowered in place, and nothing saved. *)
Lemma chopLog_damage (env : Env) (s : GameState) (logId : string)
    (rt : option Z) (i : nat) (l : LogItem) :
  find_index (fun l => String.eqb (id l) logId && negb (chopped l)) (logs s) = Some i ->
  nth_error (logs s) i = Some l -> 1 < health l ->
  chopLog env (Some s) logId rt =
    (failResult, Some (set_logs s (replace_at i (with_health l (health l - 1)) (logs s)))).
Proof.
  intros F N H. unfold chopLog. rewrite F, N. cbn [health].
  replace (health l - 1 <=? 0) with false by (symmetry; apply Z.leb_gt; lia).
  reflexivity.
Qed.

Lemma chopLog_destroy_fst (env : Env) (s : GameState) (logId : string)
    (rt : option Z) (i : nat) (l : LogItem) :
  find_index (fun l => String.eqb (id l) logId && negb (chopped l)) (logs s) = Some i ->
  nth_error (logs s) i = Some l -> health l <= 1 ->
  fst (chopLog env (Some s) logId rt) =
    mkChopResult true (points l * Z.min ((currentCombo s + 1) / 5 + 1) 5)
      (Z.min ((currentCombo s + 1) / 5 + 1) 5).
Proof.
  intros F N H. unfold chopLog. rewrite F, N. cbn [health].
  replace (health l - 1 <=? 0) with true by (symmetry; apply Z.leb_le; lia).
  reflexivity.
Qed.

(** The result of a chop depends only on the first unchopped log with the
    id and the combo. *)
Lemma chopLog_fst (env : Env) (s : GameState) (logId : string) (rt : option Z) :
  fst (chopLog env (Some s) logId rt) =
    match find (fun l => String.eqb (id l) logId && negb (chopped l)) (logs s) with
    | None => failResult
    | Some l =>
        if health l - 1 <=? 0
        then mkChopResult true (points l * Z.min ((currentCombo s + 1) / 5 + 1) 5)
               (Z.min ((currentCombo s + 1) / 5 + 1) 5)
        else failResult
    end.
Proof.
  rewrite <- find_index_find. unfold chopLog.
  destruct (find_index _ (logs s)) as [i|]; [|reflexivity].
  destruct (nth_error (logs s) i) as [l|]; [|reflexivity].
  cbn [health]. destruct (health l - 1 <=? 0); reflexivity.
Qed.

Lemma chop_times_damage (env : Env) (logId : string) (rt : option Z) (i : nat) :
  forall k s l,
  find_index (fun l => String.eqb (id l) logId && negb (chopped l)) (logs s) = Some i ->
  nth_error (logs s) i = Some l -> Z.of_nat k < health l ->
  chop_times env k logId rt (Some s) =
    Some (set_logs s (replace_at i (with_health l (health l - Z.of_nat k)) (logs s))).
Proof.
  induction k as [|k IH]; intros s l F N H.
  - cbn. rewrite Z.sub_0_r, with_health_self, (replace_at_same i l _ N).
    rewrite set_logs_self. reflexivity.
  - assert (Hi : (i < List.length (logs s))%nat)
      by (apply nth_error_Some; congruence).
    cbn [chop_times]. rewrite (chopLog_damage env s logId rt i l F N) by lia.
    cbn [snd].
    rewrite (IH (set_logs s (replace_at i (with_health l (health l - 1)) (logs s)))
               (with_health l (health l - 1))).
    + rewrite set_logs_twice, logs_set_logs, replace_at_twice by exact Hi.
      rewrite Nat2Z.inj_succ. unfold with_health. cbn [health].
      do 4 f_equal. lia.
    + rewrite logs_set_logs. apply find_index_replace; [exact F|].
      apply find_index_some in F as (b & Nb & Fb). rewrite N in Nb.
      injection Nb as <-. exact Fb.
    + rewrite logs_set_logs. apply replace_at_nth_same. exact Hi.
    + cbn. lia.
Qed.

(** [updateAchievementProgress] changes the entry at index [k] only when
    the entry has the given id and is locked, and then as the method
    writes it. *)
Lemma uap_entry (env : Env) (j : string) (p : Z) (s : GameState) (k : nat)
    (a : Achievement) :
  nth_error (achievements s) k = Some a ->
  nth_error (achievements (updateAchievementProgress env j p s)) k = Some a \/
  (ach_id a = j /\ unlocked a = false /\
   nth_error (achievements (updateAchievementProgress env j p s)) k =
     Some (mkAchievement (ach_id a) (name a) (description a) (icon a)
             (Z.min p (maxProgress a)) (maxProgress a)
             (maxProgress a <=? Z.min p (maxProgress a))
             (if maxProgress a <=? Z.min p (maxProgress a)
              then Some (now env) else unlockedAt a))).
Proof.
  intros N. unfold updateAchievementProgress.
  destruct (find_index _ (achievements s)) as [i|] eqn:F; [|left; exact N].
  destruct (nth_error (achievements s) i) as [b|] eqn:Nb; [|left; exact N].
  destruct (unlocked b) eqn:U; [left; exact N|].
  cbn [achievements set_achievements].
  assert (Hi : (i < List.length (achievements s))%nat)
    by (apply nth_error_Some; congruence).
  destruct (Nat.eq_dec i k) as [<-|Hne].
  - rewrite N in Nb. injection Nb as <-. right.
    apply find_index_some in F as (b & Nb' & Fb). rewrite N in Nb'.
    injection Nb' as <-. apply String.eqb_eq in Fb.
    split; [exact Fb|]. split; [exact U|].
    rewrite replace_at_nth_same by exact Hi.
    destruct (maxProgress a <=? Z.min p (maxProgress a)); reflexivity.
  - left. rewrite replace_at_nth_other; [exact N|exact Hi|congruence].
Qed.

Lemma uap_found (env : Env) (j : string) (p : Z) (s : GameState) (k : nat)
    (a : Achievement) :
  find_index (fun b => String.eqb (ach_id b) j) (achievements s) = Some k ->
  nth_error (achievements s) k = Some a -> unlocked a = false ->
  nth_error (achievements (updateAchievementProgress env j p s)) k =
    Some (mkAchievement (ach_id a) (name a) (description a) (icon a)
            (Z.min p (maxProgress a)) (maxProgress a)
            (maxProgress a <=? Z.min p (maxProgress a))
            (if maxProgress a <=? Z.min p (maxProgress a)
             then Some (now env) else unlockedAt a)).
Proof.
  intros F N U. unfold updateAchievementProgress. rewrite F, N, U.
  cbn [achievements set_achievements].
  rewrite replace_at_nth_same by (apply nth_error_Some; congruence).
  destruct (maxProgress a <=? Z.min p (maxProgress a)); reflexivity.
Qed.

(** A property of the achievement array that every progress update of
    [chopLog] keeps is kept by [chopLog]. *)

Lemma chopLog_achievements_pres (P : list Achievement -> Prop) (env : Env)
    (s s' : GameState) (logId : string) (rt : option Z) :
  (forall j p t, chop_update j p -> P (achievements t) ->
     P (achievements (updateAchievementProgress env j p t))) ->
  P (achievements s) -> snd (chopLog env (Some s) logId rt) = Some s' ->
  P (achievements s').
Proof.
  intros HP H0. unfold chopLog.
  destruct (find_index _ (logs s)) as [i|]; [|cbn; intros E; injection E as <-; exact H0].
  destruct (nth_error (logs s) i) as [l|]; [|cbn; intros E; injection E as <-; exact H0].
  cbn [health]. destruct (health l - 1 <=? 0); cbn [snd]; intros E; injection E as <-.
  - rewrite saveState_achievements. cbn [achievements set_stats].
    assert (H2 : P (achievements (updateAchievementProgress env "combo_master"
        (currentCombo (updateAchievementProgress env "century_club" 1
           (updateAchievementProgress env "first_chop" 1
              (set_counters (set_logs s (replace_at i (mkLogItem (id l) (type l)
                   (size l) (health l - 1) (maxHealth l) (points l) (x l) (y l) true)
                   (logs s)))
                 (score (set_logs s (replace_at i (mkLogItem (id l) (type l)
                   (size l) (health l - 1) (maxHealth l) (points l) (x l) (y l) true)
                   (logs s))) + points l * Z.min ((currentCombo s + 1) / 5 + 1) 5)
                 (totalChops s + 1)
                 (if bestCombo s <? currentCombo s + 1 then currentCombo s + 1
                  else bestCombo s)
                 (currentCombo s + 1)))))
        (updateAchievementProgress env "century_club" 1
           (updateAchievementProgress env "first_chop" 1
              (set_counters (set_logs s (replace_at i (mkLogItem (id l) (type l)
                   (size l) (health l - 1) (maxHealth l) (points l) (x l) (y l) true)
                   (logs s)))
                 (score (set_logs s (replace_at i (mkLogItem (id l) (type l)
                   (size l) (health l - 1) (maxHealth l) (points l) (x l) (y l) true)
                   (logs s))) + points l * Z.min ((currentCombo s + 1) / 5 + 1) 5)
                 (totalChops s + 1)
                 (if bestCombo s <? currentCombo s + 1 then currentCombo s + 1
                  else bestCombo s)
                 (currentCombo s + 1))))))).
    { apply HP; [right; right; left; reflexivity|].
      apply HP; [right; left; split; reflexivity|].
      apply HP; [left; split; reflexivity|]. exact H0. }
    destruct (type l); try exact H2.
    apply HP; [right; right; right; split; reflexivity|]. exact H2.
  - exact H0.
Qed.

Lemma run_achievements_pres (P : list Achievement -> Prop) (es : list Event) :
  (forall env j p t, chop_update j p -> P (achievements t) ->
     P (achievements (updateAchievementProgress env j p t))) ->
  forall s s', P (achievements s) -> run es (Some s) = Some s' -> P (achievements s').
Proof.
  intros HP. induction es as [|e es IH]; intros s s' H0 E.
  - cbn in E. injection E as <-. exact H0.
  - cbn [run] in E. destruct e as [env i r | env]; cbn [step] in E.
    + destruct (chopLog_combo env s i r) as (s1 & E1 & _). rewrite E1 in E.
      apply (IH s1 s' (chopLog_achievements_pres P env s s1 i r (HP env) H0 E1) E).
    + unfold resetCombo in E. destruct (currentCombo s =? 0).
      * exact (IH s s' H0 E).
      * apply (IH (saveState env (set_currentCombo s 0)) s'); [|exact E].
        rewrite saveState_achievements. exact H0.
Qed.

(** *** Properties *)

(** [spawnLog] appends one fresh log and changes nothing else but the
    save time. *)
Lemma spawnLog_eq (env : Env) (ti si : nat) (logId : string) (px py : Z)
    (s : GameState) :
  spawnLog env ti si logId px py (Some s) =
    Some (saveState env (set_logs s (logs s ++
      [mkLogItem logId (nth ti logTypes regular) (nth si logSizes small)
         (fst (type_stats (nth ti logTypes regular) (size_stats (nth si logSizes small))))
         (fst (type_stats (nth ti logTypes regular) (size_stats (nth si logSizes small))))
         (snd (type_stats (nth ti logTypes regular) (size_stats (nth si logSizes small))))
         px py false]))).
Proof.
  unfold spawnLog.
  destruct (type_stats (nth ti logTypes regular) (size_stats (nth si logSizes small))).
  reflexivity.
Qed.

(** [spawnLog] appends exactly one log, at the end: it has the generated
    id, is not chopped, has full health ([health = maxHealth]) between 1
    and 4 and between 10 and 200 points, and is never of type [mystic] or
    size [giant]; score, combo and achievements are unchanged. *)
Theorem spawnLog_appends_fresh_log (env : Env) (ti si : nat) (logId : string)
    (px py : Z) (s : GameState) (Hti : (ti < 5)%nat) (Hsi : (si < 3)%nat) :
  exists l s', spawnLog env ti si logId px py (Some s) = Some s' /\
    logs s' = logs s ++ [l] /\ id l = logId /\ chopped l = false /\
    health l = maxHealth l /\ 1 <= health l <= 4 /\ 10 <= points l <= 200 /\
    type l <> mystic /\ size l <> giant /\
    score s' = score s /\ currentCombo s' = currentCombo s /\
    achievements s' = achievements s.
Proof.
  eexists. eexists. split; [apply spawnLog_eq|].
  rewrite saveState_logs, saveState_achievements.
  destruct (saveState_cases env (set_logs s (logs s ++ [mkLogItem logId
    (nth ti logTypes regular) (nth si logSizes small)
    (fst (type_stats (nth ti logTypes regular) (size_stats (nth si logSizes small))))
    (fst (type_stats (nth ti logTypes regular) (size_stats (nth si logSizes small))))
    (snd (type_stats (nth ti logTypes regular) (size_stats (nth si logSizes small))))
    px py false]))) as [R|R]; rewrite R; cbn [logs score currentCombo achievements
    set_logs set_lastUpdated id chopped health maxHealth points type size];
  (split; [reflexivity|]); (split; [reflexivity|]); (split; [reflexivity|]);
  (split; [reflexivity|]);
  (assert (Ht : ti = 0%nat \/ ti = 1%nat \/ ti = 2%nat \/ ti = 3%nat \/ ti = 4%nat)
     by lia);
  (assert (Hs : si = 0%nat \/ si = 1%nat \/ si = 2%nat) by lia);
  destruct Ht as [-> | [-> | [-> | [-> | ->]]]]; destruct Hs as [-> | [-> | ->]]; cbn;
  repeat split; try lia; discriminate.
Qed.

(** A log with [h] health needs exactly [h] chops: while it is found by
    id, each of the first [h - 1] chops fails and only lowers its health
    (score, combos and save time stay), and the [h]-th chop succeeds with
    [points * min(floor((combo + 1) / 5) + 1, 5)]. *)
Theorem log_takes_health_chops (env : Env) (s : GameState) (logId : string)
    (rt : option Z) (i : nat) (l : LogItem)
    (F : find_index (fun l => String.eqb (id l) logId && negb (chopped l)) (logs s) = Some i)
    (N : nth_error (logs s) i = Some l) (Hh : 1 <= health l) :
  (forall k, (k < Z.to_nat (health l - 1))%nat ->
     exists s', chop_times env k logId rt (Some s) = Some s' /\
       fst (chopLog env (Some s') logId rt) = failResult /\
       score s' = score s /\ currentCombo s' = currentCombo s /\
       bestCombo s' = bestCombo s /\ lastUpdated s' = lastUpdated s) /\
  exists s', chop_times env (Z.to_nat (health l - 1)) logId rt (Some s) = Some s' /\
    fst (chopLog env (Some s') logId rt) =
      mkChopResult true (points l * Z.min ((currentCombo s + 1) / 5 + 1) 5)
        (Z.min ((currentCombo s + 1) / 5 + 1) 5).
Proof.
  assert (Hi : (i < List.length (logs s))%nat) by (apply nth_error_Some; congruence).
  assert (Fk : forall h, find_index (fun l => String.eqb (id l) logId && negb (chopped l))
     (logs (set_logs s (replace_at i (with_health l h) (logs s)))) = Some i).
  { intros h. rewrite logs_set_logs. apply find_index_replace; [exact F|].
    apply find_index_some in F as (b & Nb & Fb). rewrite N in Nb.
    injection Nb as <-. exact Fb. }
  assert (Nk : forall h, nth_error (logs (set_logs s (replace_at i (with_health l h)
     (logs s)))) i = Some (with_health l h)).
  { intros h. rewrite logs_set_logs. apply replace_at_nth_same. exact Hi. }
  split.
  - intros k Hk.
    eexists. split; [apply (chop_times_damage env logId rt i k s l F N); lia|].
    split; [|repeat split].
    rewrite (chopLog_damage env _ logId rt i _ (Fk _) (Nk _)); [reflexivity|].
    cbn. lia.
  - eexists. split; [apply (chop_times_damage env logId rt i _ s l F N); lia|].
    rewrite (chopLog_destroy_fst env _ logId rt i _ (Fk _) (Nk _)); [reflexivity|].
    cbn. lia.
Qed.

(** Every successful chop unlocks the [first_chop] achievement (when it
    exists with [maxProgress <= 1], as [createInitialAchievements] makes
    it); if it was still locked, its unlock time is the time of the chop. *)
Theorem successful_chop_unlocks_first_chop (env : Env) (s s' : GameState)
    (logId : string) (rt : option Z) (k : nat) (a : Achievement)
    (Hs : success (fst (chopLog env (Some s) logId rt)) = true)
    (E : snd (chopLog env (Some s) logId rt) = Some s')
    (F : find_index (fun b => String.eqb (ach_id b) "first_chop") (achievements s) = Some k)
    (N : nth_error (achievements s) k = Some a) (Hm : maxProgress a <= 1) :
  exists a', nth_error (achievements s') k = Some a' /\
    ach_id a' = "first_chop"%string /\ unlocked a' = true /\
    (unlocked a = false -> unlockedAt a' = Some (now env)).
Proof.
  assert (Hid : ach_id a = "first_chop"%string).
  { apply find_index_some in F as (b & Nb & Fb). rewrite N in Nb.
    injection Nb as <-. apply String.eqb_eq. exact Fb. }
  revert Hs E. unfold chopLog.
  destruct (find_index _ (logs s)) as [i|]; [|discriminate].
  destruct (nth_error (logs s) i) as [l|]; [|discriminate].
  cbn [health]. destruct (health l - 1 <=? 0); [|discriminate].
  intros _ E. cbn [snd] in E. injection E as <-.
  rewrite saveState_achievements. cbn [achievements set_stats].
  set (s1 := set_counters (set_logs s (replace_at i (mkLogItem (id l) (type l)
                   (size l) (health l - 1) (maxHealth l) (points l) (x l) (y l) true)
                   (logs s)))
                 (score (set_logs s (replace_at i (mkLogItem (id l) (type l)
                   (size l) (health l - 1) (maxHealth l) (points l) (x l) (y l) true)
                   (logs s))) + points l * Z.min ((currentCombo s + 1) / 5 + 1) 5)
                 (totalChops s + 1)
                 (if bestCombo s <? currentCombo s + 1 then currentCombo s + 1
                  else bestCombo s)
                 (currentCombo s + 1)).
  assert (H1 : exists a1,
    nth_error (achievements (updateAchievementProgress env "first_chop" 1 s1)) k = Some a1 /\
    ach_id a1 = "first_chop"%string /\ unlocked a1 = true /\
    (unlocked a = false -> unlockedAt a1 = Some (now env))).
  { destruct (unlocked a) eqn:U.
    - exists a. split; [|split; [exact Hid|split; [exact U|intros C; discriminate C]]].
      apply uap_keeps_unlocked; [exact N|exact U].
    - rewrite (uap_found env "first_chop" 1 s1 k a F N U).
      replace (Z.min 1 (maxProgress a)) with (maxProgress a) by lia.
      rewrite Z.leb_refl.
      eexists. split; [reflexivity|]. cbn. auto. }
  destruct H1 as (a1 & N1 & I1 & U1 & T1).
  exists a1. split; [|auto].
  destruct (type l);
    repeat (first [exact N1 | apply uap_keeps_unlocked; [|exact U1]]).
Qed.

(** An achievement whose id is none of [first_chop], [century_club],
    [combo_master] and [golden_touch] (such as [speed_demon]) is never
    changed by any sequence of [chopLog] and [resetCombo] calls. *)
Theorem untouched_achievement_never_changes (es : list Event) (s s' : GameState)
    (k : nat) (a : Achievement)
    (N : nth_error (achievements s) k = Some a)
    (Hid : ~ In (ach_id a) ["first_chop"; "century_club"; "combo_master";
                            "golden_touch"]%string)
    (E : run es (Some s) = Some s') :
  nth_error (achievements s') k = Some a.
Proof.
  apply (run_achievements_pres (fun achs => nth_error achs k = Some a) es)
    with (s := s); [|exact N|exact E].
  intros env j p t U Nt.
  destruct (uap_entry env j p t k a Nt) as [H|(Ej & _)]; [exact H|].
  exfalso. apply Hid. rewrite Ej.
  destruct U as [(->&_)|[(->&_)|[->|(->&_)]]]; cbn; tauto.
Qed.

(** [chopLog] always sets [century_club]'s progress to 1, never to the
    number of chops: an entry with id [century_club] and [maxProgress > 1]
    (100 in [createInitialAchievements]) that is locked with progress at
    most 1 stays locked, with progress at most 1, through any sequence of
    [chopLog] and [resetCombo] calls. *)
Theorem century_club_never_unlocked (es : list Event) (s s' : GameState)
    (k : nat) (a : Achievement)
    (N : nth_error (achievements s) k = Some a)
    (Hid : ach_id a = "century_club"%string) (Hm : 1 < maxProgress a)
    (U : unlocked a = false) (Hp : progress a <= 1)
    (E : run es (Some s) = Some s') :
  exists a', nth_error (achievements s') k = Some a' /\
    ach_id a' = "century_club"%string /\ maxProgress a' = maxProgress a /\
    unlocked a' = false /\ progress a' <= 1.
Proof.
  apply (run_achievements_pres (fun achs => exists a', nth_error achs k = Some a' /\
    ach_id a' = "century_club"%string /\ maxProgress a' = maxProgress a /\
    unlocked a' = false /\ progress a' <= 1) es) with (s := s);
    [|exists a; auto|exact E].
  intros env j p t Up (b & Nt & Ib & Mb & Ub & Pb).
  destruct (uap_entry env j p t k b Nt) as [H|(Ej & _ & H)].
  - exists b. auto.
  - rewrite Ib in Ej. subst j.
    destruct Up as [(C&_)|[(_&->)|[C|(C&_)]]]; try discriminate C.
    eexists. split; [exact H|]. cbn.
    replace (Z.min 1 (maxProgress b)) with 1 by lia.
    replace (maxProgress b <=? 1) with false by (symmetry; apply Z.leb_gt; lia).
    repeat split; auto; lia.
Qed.

(** [activatePowerUp] never stacks: if no two power-ups share a type, that
    stays so.  A power-up of the type already present is re-activated in
    place (same id and duration, [active], [activatedAt] now); otherwise a
    new one with [getPowerUpDuration(type)] is appended. *)
Theorem activatePowerUp_no_stacking (env : Env) (t : PowerUpType) (newId : string)
    (s : GameState) (Hnd : NoDup (map pu_type (powerUps s))) :
  exists s', activatePowerUp env t newId (Some s) = Some s' /\
    NoDup (map pu_type (powerUps s')) /\
    (forall p, In p (powerUps s) -> pu_type p = t ->
       In (mkPowerUp (pu_id p) t (duration p) true (Some (now env))) (powerUps s')) /\
    ((forall p, In p (powerUps s) -> pu_type p <> t) ->
       powerUps s' = powerUps s ++
         [mkPowerUp newId t (getPowerUpDuration t) true (Some (now env))]).
Proof.
  assert (Eqb : forall a b, PowerUpType_eqb a b = true <-> a = b)
    by (intros [] []; cbn; split; congruence).
  unfold activatePowerUp.
  destruct (find_index _ (powerUps s)) as [i|] eqn:F.
  - pose proof F as F'. apply find_index_some in F' as (q & Nq & Fq).
    apply Eqb in Fq. rewrite Nq.
    eexists. split; [reflexivity|]. rewrite saveState_powerUps.
    assert (Hi : (i < List.length (powerUps s))%nat)
      by (apply nth_error_Some; congruence).
    cbn [powerUps set_powerUps]. split; [|split].
    + erewrite map_replace_same; [exact Hnd|exact Nq|reflexivity].
    + intros p Hp Tp.
      assert (p = q) as ->.
      { apply (nodup_map_same pu_type (powerUps s)); auto.
        - exact (nth_error_In _ _ Nq).
        - congruence. }
      rewrite <- Fq. apply (nth_error_In _ i). apply replace_at_nth_same. exact Hi.
    + intros Hnone. exfalso. exact (Hnone q (nth_error_In _ _ Nq) Fq).
  - eexists. split; [reflexivity|]. rewrite saveState_powerUps.
    cbn [powerUps set_powerUps].
    assert (Hno : forall p, In p (powerUps s) -> pu_type p <> t).
    { intros p Hp Tp. apply find_index_none with (a := p) in F; [|exact Hp].
      rewrite Tp in F. destruct t; discriminate F. }
    split; [|split].
    + rewrite map_app. cbn [map]. apply nodup_snoc; [exact Hnd|].
      intros Hin. apply in_map_iff in Hin as (p & Tp & Hp). exact (Hno p Hp Tp).
    + intros p Hp Tp. exfalso. exact (Hno p Hp Tp).
    + intros _. reflexivity.
Qed.

Lemma keep_log_chopped (l : LogItem) : keep_log l = negb (chopped l).
Proof. unfold keep_log. apply orb_false_r. Qed.

Lemma filter_all {A} (f : A -> bool) (l : list A) :
  (forall a, In a l -> f a = true) -> filter f l = l.
Proof.
  induction l as [|a l IH]; intros H; cbn; [reflexivity|].
  rewrite (H a (or_introl eq_refl)), IH; [reflexivity|]. intros b Hb. apply H. now right.
Qed.

(** [cleanupLogs] drops every chopped log, however recently it was chopped
    (no code sets [choppedAt]), and keeps the unchopped ones in order;
    score, combo and achievements are untouched, and with no chopped log
    the state is left exactly as it was (not even saved). *)
Theorem cleanupLogs_drops_chopped (env : Env) (s : GameState) :
  exists s', cleanupLogs env (Some s) = Some s' /\
    logs s' = filter (fun l => negb (chopped l)) (logs s) /\
    (forall l, In l (logs s') -> chopped l = false) /\
    score s' = score s /\ currentCombo s' = currentCombo s /\
    achievements s' = achievements s /\
    ((forall l, In l (logs s) -> chopped l = false) -> s' = s).
Proof.
  assert (Hf : filter keep_log (logs s) = filter (fun l => negb (chopped l)) (logs s))
    by (apply filter_ext; exact keep_log_chopped).
  unfold cleanupLogs. rewrite Hf.
  set (ls := filter (fun l => negb (chopped l)) (logs s)).
  assert (Hin : forall l, In l ls -> chopped l = false).
  { intros l Hl. apply filter_In in Hl as (_ & Hc). destruct (chopped l); auto. }
  assert (Hall : (forall l, In l (logs s) -> chopped l = false) -> ls = logs s).
  { intros Hall. apply filter_all. intros l Hl. rewrite (Hall l Hl). reflexivity. }
  destruct (Nat.eqb (List.length (logs s)) (List.length ls)) eqn:Hn.
  - eexists. split; [reflexivity|].
    repeat split; try reflexivity; [exact Hin|].
    intros H. rewrite (Hall H). apply set_logs_self.
  - destruct (saveState_cases env (set_logs s ls)) as [R|R]; rewrite R;
      eexists; (split; [reflexivity|]);
      repeat split; try reflexivity; try exact Hin;
      intros H; rewrite (Hall H), Nat.eqb_refl in Hn; discriminate.
Qed.

(** Cleaning up never changes the outcome of a later chop: [chopLog]
    returns the same result after [cleanupLogs] as before it. *)
Theorem cleanupLogs_preserves_chop_result (env : Env) (gs : option GameState)
    (logId : string) (rt : option Z) :
  fst (chopLog env (cleanupLogs env gs) logId rt) = fst (chopLog env gs logId rt).
Proof.
  destruct gs as [s|]; [|reflexivity].
  assert (Hfind : find (fun l => String.eqb (id l) logId && negb (chopped l))
                    (filter keep_log (logs s)) =
                  find (fun l => String.eqb (id l) logId && negb (chopped l)) (logs s)).
  { apply find_filter. intros a Ha. rewrite keep_log_chopped.
    apply andb_prop in Ha as [_ Ha]. exact Ha. }
  unfold cleanupLogs.
  destruct (Nat.eqb _ _).
  - rewrite !chopLog_fst, logs_set_logs, Hfind. reflexivity.
  - rewrite !chopLog_fst, saveState_logs, saveState_currentCombo, logs_set_logs, Hfind.
    reflexivity.
Qed.

(** [initialize] takes effect once: afterwards the manager is initialized;
    its game state is the parsed one (none for a stored [null]), a new
    one for the player when the stored text does not parse, or a new one
    passed through [saveState] when nothing was stored; and any later
    [initialize], even for another player or another stored value,
    changes nothing. *)
Theorem initialize_once (env : Env) (pid suffix : string) (saved : Saved) :
  initialized (initialize env pid suffix saved newGameManager) = true /\
  gameState (initialize env pid suffix saved newGameManager) =
    (match saved with
     | Parsed s0 => Some s0
     | ParsedNull => None
     | Corrupt => Some (createInitialGameState env pid suffix)
     | NoSave => Some (saveState env (createInitialGameState env pid suffix))
     end) /\
  (forall env' pid' suffix' saved',
     initialize env' pid' suffix' saved'
       (initialize env pid suffix saved newGameManager) =
     initialize env pid suffix saved newGameManager).
Proof.
  destruct saved as [|s0| |]; cbn; repeat split.
Qed.

(** *** Examples *)

(** A large hardwood log (type index 3, size index 2) gets health 4. *)
Lemma spawnLog_appends_fresh_log_witness :
  exists l s', spawnLog sample_env 3 2 "log_1" 100 200 (Some fresh_state) = Some s' /\
    logs s' = logs fresh_state ++ [l] /\ health l = 4 /\ points l = 80.
Proof.
  destruct (spawnLog_appends_fresh_log sample_env 3 2 "log_1" 100 200 fresh_state
              ltac:(lia) ltac:(lia)) as (l & s' & E & L & _).
  exists l, s'. split; [exact E|]. split; [exact L|].
  rewrite spawnLog_eq in E. injection E as <-.
  rewrite saveState_logs in L. cbn in L.
  injection L as <-. split; reflexivity.
Defined.

(** A log of health 3 needs three chops: two damage it, the third
    destroys it for 10 points. *)
Lemma log_takes_health_chops_witness :
  exists s', chop_times sample_env 2 "a" None (Some (fresh_with_log 3)) = Some s' /\
    fst (chopLog sample_env (Some s') "a" None) = mkChopResult true 10 1 /\
    fst (chopLog sample_env (Some (fresh_with_log 3)) "a" None) = failResult.
Proof.
  destruct (log_takes_health_chops sample_env (fresh_with_log 3) "a" None 0
              (sample_log "a" 3 false) eq_refl eq_refl ltac:(cbn; lia))
    as (Hfail & s' & E & R).
  exists s'. split; [exact E|]. split; [exact R|].
  destruct (Hfail 0%nat ltac:(cbn; lia)) as (s0 & E0 & R0 & _).
  cbn in E0. injection E0 as <-. exact R0.
Defined.

(** The first chop of a fresh state unlocks [first_chop] at time 5. *)
Lemma successful_chop_unlocks_first_chop_witness :
  exists s' a', snd (chopLog sample_env (Some (fresh_with_log 1)) "a" None) = Some s' /\
    nth_error (achievements s') 0 = Some a' /\ unlocked a' = true /\
    unlockedAt a' = Some 5.
Proof.
  destruct (snd (chopLog sample_env (Some (fresh_with_log 1)) "a" None)) as [s'|] eqn:E;
    [|vm_compute in E; discriminate E].
  destruct (successful_chop_unlocks_first_chop sample_env (fresh_with_log 1) s' "a"
              None 0 (nth 0 initialAchievements (combo_master_at 0))
              ltac:(vm_compute; reflexivity) E eq_refl eq_refl ltac:(cbn; lia))
    as (a' & N & _ & U & T).
  exists s', a'. split; [reflexivity|]. split; [exact N|]. split; [exact U|].
  apply T. reflexivity.
Defined.

(** [speed_demon] (index 4) is unchanged after a chop and a reset. *)
Lemma untouched_achievement_never_changes_witness :
  exists s', run [Chop sample_env "a" None; Reset sample_env] (Some (fresh_with_log 1))
    = Some s' /\
    nth_error (achievements s') 4 = nth_error initialAchievements 4.
Proof.
  destruct (run [Chop sample_env "a" None; Reset sample_env] (Some (fresh_with_log 1)))
    as [s'|] eqn:E; [|vm_compute in E; discriminate E].
  exists s'. split; [reflexivity|].
  exact (untouched_achievement_never_changes _ (fresh_with_log 1) s' 4
           (nth 4 initialAchievements (combo_master_at 0)) eq_refl
           ltac:(cbn; intuition discriminate) E).
Defined.

(** After three chops [century_club] (index 2) is still locked. *)
Lemma century_club_never_unlocked_witness :
  exists s' a', run [Chop sample_env "a" None; Chop sample_env "a" None;
                     Chop sample_env "a" None] (Some (fresh_with_log 1)) = Some s' /\
    nth_error (achievements s') 2 = Some a' /\ unlocked a' = false.
Proof.
  destruct (run [Chop sample_env "a" None; Chop sample_env "a" None;
                 Chop sample_env "a" None] (Some (fresh_with_log 1)))
    as [s'|] eqn:E; [|vm_compute in E; discriminate E].
  destruct (century_club_never_unlocked _ (fresh_with_log 1) s' 2
              (nth 2 initialAchievements (combo_master_at 0)) eq_refl eq_refl
              ltac:(cbn; lia) eq_refl ltac:(cbn; lia) E) as (a' & N & _ & _ & U & _).
  exists s', a'. auto.
Defined.

(** Re-activating the double axe keeps its id and 15 s duration. *)
Lemma activatePowerUp_no_stacking_witness :
  exists s', activatePowerUp sample_env double_axe "powerup_5" (Some axe_state) = Some s' /\
    In (mkPowerUp "powerup_1" double_axe 15000 true (Some 5)) (powerUps s').
Proof.
  destruct (activatePowerUp_no_stacking sample_env double_axe "powerup_5" axe_state
              ltac:(cbn; repeat constructor; intros []))
    as (s' & E & _ & H & _).
  exists s'. split; [exact E|].
  exact (H (mkPowerUp "powerup_1" double_axe 15000 false None) (or_introl eq_refl) eq_refl).
Defined.

End ManagerOpsFacts.

(* ================================================================= *)
(** ** The Convex mutations and queries *)

Module ConvexFacts.

Import Convex.

Lemma first_where_In {A} (f : A -> bool) (t : list (string * A)) i d :
  first_where f t = Some (i, d) -> In (i, d) t /\ f d = true.
Proof.
  induction t as [|[j e] t IH]; cbn; [discriminate|].
  destruct (f e) eqn:E.
  - intros H. inversion H; subst. auto.
  - intros H. destruct (IH H). auto.
Qed.

Lemma first_where_None {A} (f : A -> bool) (t : list (string * A)) :
  first_where f t = None -> forall i d, In (i, d) t -> f d = false.
Proof.
  induction t as [|[j e] t IH]; cbn; [tauto|].
  destruct (f e) eqn:E; [discriminate|].
  intros H i d [Hq|Hin]; [inversion Hq; subst; exact E|eauto].
Qed.

Lemma first_where_app_None {A} (f : A -> bool) (t u : list (string * A)) :
  first_where f t = None -> first_where f (t ++ u) = first_where f u.
Proof.
  induction t as [|[j e] t IH]; cbn; [auto|].
  destruct (f e); [discriminate|exact IH].
Qed.

Lemma first_where_app_Some {A} (f : A -> bool) (t u : list (string * A)) r :
  first_where f t = Some r -> first_where f (t ++ u) = Some r.
Proof.
  induction t as [|[j e] t IH]; cbn; [discriminate|].
  destruct (f e); [auto|exact IH].
Qed.

Lemma first_where_patch {A} (f : A -> bool) i (g : A -> A) (t : list (string * A)) :
  (forall d, f (g d) = f d) ->
  first_where f (patch i g t) =
  option_map (fun e => if String.eqb (fst e) i then (fst e, g (snd e)) else e)
    (first_where f t).
Proof.
  intros Hg. induction t as [|[j e] t IH]; cbn; [reflexivity|].
  destruct (String.eqb j i) eqn:E; cbn; rewrite ?Hg;
    destruct (f e); cbn; rewrite ?E; auto.
Qed.

Lemma lookup_patch {A} i (g : A -> A) (t : list (string * A)) :
  lookup i (patch i g t) = option_map g (lookup i t).
Proof.
  induction t as [|[j e] t IH]; cbn; [reflexivity|].
  destruct (String.eqb j i) eqn:E; cbn; rewrite E; auto.
Qed.

Lemma lookup_patch_other {A} i k (g : A -> A) (t : list (string * A)) :
  k <> i -> lookup k (patch i g t) = lookup k t.
Proof.
  intros Hk. induction t as [|[j e] t IH]; cbn; [reflexivity|].
  destruct (String.eqb j i) eqn:E; cbn; [|destruct (String.eqb j k); auto].
  apply String.eqb_eq in E. subst j.
  destruct (String.eqb i k) eqn:F; [apply String.eqb_eq in F; congruence|exact IH].
Qed.

Lemma In_patch {A} i (g : A -> A) (t : list (string * A)) j d :
  In (j, d) (patch i g t) ->
  (j <> i /\ In (j, d) t) \/ (j = i /\ exists d0, In (i, d0) t /\ d = g d0).
Proof.
  unfold patch. intros H. apply in_map_iff in H as [[j0 d0] [Heq Hin]].
  cbn in Heq. destruct (String.eqb j0 i) eqn:E.
  - apply String.eqb_eq in E. inversion Heq; subst. right. eauto.
  - apply String.eqb_neq in E. inversion Heq; subst. left. auto.
Qed.

Lemma map_fst_patch {A} i (g : A -> A) (t : list (string * A)) :
  map fst (patch i g t) = map fst t.
Proof.
  unfold patch. rewrite map_map. apply map_ext. intros [j d]. cbn.
  destruct (String.eqb j i); reflexivity.
Qed.

Lemma map_snd_patch {A B} (k : A -> B) i (g : A -> A) (t : list (string * A)) :
  (forall d, k (g d) = k d) ->
  map (fun e => k (snd e)) (patch i g t) = map (fun e => k (snd e)) t.
Proof.
  intros Hg. unfold patch. rewrite map_map. apply map_ext. intros [j d]. cbn.
  destruct (String.eqb j i); cbn; auto.
Qed.

Lemma nodup_fst_eq {A} (t : list (string * A)) i a b :
  NoDup (map fst t) -> In (i, a) t -> In (i, b) t -> a = b.
Proof.
  induction t as [|[j e] t IH]; cbn; [tauto|].
  intros Hnd. inversion Hnd as [|? ? Hj Hnd']; subst.
  intros [Ha|Ha] [Hb|Hb].
  - inversion Ha; inversion Hb; subst. reflexivity.
  - inversion Ha; subst. exfalso. apply Hj. apply (in_map fst) in Hb. exact Hb.
  - inversion Hb; subst. exfalso. apply Hj. apply (in_map fst) in Ha. exact Ha.
  - eauto.
Qed.

Lemma includes_In (l : list string) (s : string) :
  Hook.includes l s = true <-> In s l.
Proof.
  unfold Hook.includes. rewrite existsb_exists. split.
  - intros [x [Hx E]]. apply String.eqb_eq in E. subst. exact Hx.
  - intros H. exists s. split; [exact H|apply String.eqb_refl].
Qed.

(** createOrUpdatePlayer: from a table with distinct document ids, one
    player per user and each name owned by one user, and a fresh id for
    the insert, a successful call keeps all three and [getPlayer uid]
    then returns the returned id with the new name; the call fails only
    with [NameTaken name], when a player of another user has the name. *)
Theorem createOrUpdatePlayer_unique (now : Z) (newId uid name : string) (db : Db)
    (Hid : NoDup (map fst (players db)))
    (Huid : NoDup (map (fun e => userId (snd e)) (players db)))
    (Hnm : names_ok db)
    (Hfresh : ~ In newId (map fst (players db))) :
  match createOrUpdatePlayer now newId uid name db with
  | Ok pid db' =>
      NoDup (map fst (players db')) /\
      NoDup (map (fun e => userId (snd e)) (players db')) /\
      names_ok db' /\
      exists p, getPlayer uid db' = Some (pid, p) /\ pname p = name
  | Err e =>
      e = NameTaken name /\
      exists i p, In (i, p) (players db) /\ pname p = name /\ userId p <> uid
  end.
Proof.
  unfold createOrUpdatePlayer. cbv zeta.
  destruct (first_where (fun p => String.eqb (pname p) name) (players db))
    as [[ci c]|] eqn:Hc;
    [destruct (String.eqb (userId c) uid) eqn:Ecu; cbn [negb]|].
  2: { split; [reflexivity|]. apply first_where_In in Hc as [Hin Hn].
       apply String.eqb_eq in Hn. apply String.eqb_neq in Ecu. eauto. }
  1: assert (NC : forall j q, In (j, q) (players db) -> pname q = name ->
                  userId q = uid)
       by (apply first_where_In in Hc as [Hin Hn];
           apply String.eqb_eq in Hn; apply String.eqb_eq in Ecu;
           intros j q Hq Hqn; rewrite <- Ecu; eapply Hnm; [exact Hq|exact Hin|congruence]).
  2: assert (NC : forall j q, In (j, q) (players db) -> pname q = name ->
                  userId q = uid)
       by (intros j q Hq Hqn; pose proof (first_where_None _ _ Hc j q Hq) as F;
           cbn in F; rewrite Hqn, String.eqb_refl in F; discriminate F).
  all: clear Hc.
  all: destruct (first_where (fun p => String.eqb (userId p) uid) (players db))
         as [[pid pe]|] eqn:He.
  all: try (pose proof (first_where_In _ _ _ _ He) as [Hpe Upe];
            apply String.eqb_eq in Upe).
  all: cbn [players set_players]; unfold names_ok; cbn [players set_players].
  (* The existing player is renamed. *)
  1,3: split; [rewrite map_fst_patch; exact Hid|];
       split; [rewrite map_snd_patch; [exact Huid|intros; reflexivity]|];
       split;
       [ intros i j p q Hp Hq Hpq;
         apply In_patch in Hp as [[_ Hp]|[-> [d0 [Hd0 ->]]]];
         apply In_patch in Hq as [[_ Hq]|[-> [d1 [Hd1 ->]]]]; cbn in Hpq |- *;
         [ eapply Hnm; eauto
         | rewrite (nodup_fst_eq _ _ _ _ Hid Hd1 Hpe); rewrite Upe; eapply NC; eauto
         | rewrite (nodup_fst_eq _ _ _ _ Hid Hd0 Hpe); rewrite Upe;
           symmetry; eapply NC; eauto
         | rewrite (nodup_fst_eq _ _ _ _ Hid Hd0 Hpe),
             (nodup_fst_eq _ _ _ _ Hid Hd1 Hpe); reflexivity ]
       | unfold getPlayer; cbn [players set_players];
         rewrite first_where_patch by (intros; reflexivity);
         rewrite He; cbn; rewrite String.eqb_refl; eexists; split; reflexivity ].
  (* A new player is inserted. *)
  all: assert (Hno : ~ In uid (map (fun e => userId (snd e)) (players db)))
         by (intros Hin; apply in_map_iff in Hin as [[j d] [Hd Hin]];
             cbn in Hd; pose proof (first_where_None _ _ He j d Hin) as F;
             cbn in F; rewrite Hd, String.eqb_refl in F; discriminate F).
  all: split; [rewrite map_app; apply ManagerOpsFacts.nodup_snoc; assumption|].
  all: split; [rewrite map_app; apply ManagerOpsFacts.nodup_snoc; assumption|].
  all: split;
       [ intros i j p q Hp Hq Hpq;
         apply in_app_or in Hp as [Hp|[Hp|[]]];
         apply in_app_or in Hq as [Hq|[Hq|[]]];
         try (inversion Hp; subst p); try (inversion Hq; subst q); cbn in Hpq |- *;
         [ eapply Hnm; eauto
         | eapply NC; eauto
         | symmetry; eapply NC; eauto
         | reflexivity ]
       | unfold getPlayer; cbn [players set_players];
         rewrite first_where_app_None by exact He; cbn;
         rewrite String.eqb_refl; eexists; split; reflexivity ].
Qed.

Lemma In_patch_fst {A} i (g : A -> A) (t : list (string * A)) j d :
  In (j, d) (patch i g t) -> j = i -> exists d0, d = g d0.
Proof.
  intros H ->. apply In_patch in H as [[N _]|[_ [d0 [_ E]]]]; [congruence|eauto].
Qed.

Lemma lookup_app_In {A} i (t u : list (string * A)) :
  In i (map fst t) -> lookup i (t ++ u) = lookup i t.
Proof.
  induction t as [|[j e] t IH]; cbn; [tauto|].
  intros [->|H]; [rewrite String.eqb_refl; reflexivity|].
  destruct (String.eqb j i); [reflexivity|auto].
Qed.

Lemma unlock_loop_sound (pl : option Hook.Player) (st : Hook.Stats)
    (all : list Hook.AchievementDef) (x : string) :
  In x (Hook.unlock_loop pl st all) ->
  exists a, In a all /\ Hook.ad_id a = x /\ Hook.shouldUnlock pl st a = true /\
    match pl with Some p => Hook.includes (Hook.achievements p) x = false
    | None => True end.
Proof.
  induction all as [|a rest IH]; cbn; [tauto|].
  destruct (match pl with Some p => Hook.includes (Hook.achievements p) (Hook.ad_id a)
            | None => false end) eqn:Sk.
  - intros H. destruct (IH H) as (b & ? & ? & ? & ?). exists b. auto.
  - destruct (Hook.shouldUnlock pl st a) eqn:Sh.
    + intros [<-|H].
      * exists a. repeat split; auto. destruct pl; [exact Sk|exact I].
      * destruct (IH H) as (b & ? & ? & ? & ?). exists b. auto.
    + intros H. destruct (IH H) as (b & ? & ? & ? & ?). exists b. auto.
Qed.

Lemma unlock_loop_nodup (pl : option Hook.Player) (st : Hook.Stats)
    (all : list Hook.AchievementDef) :
  NoDup (map Hook.ad_id all) -> NoDup (Hook.unlock_loop pl st all).
Proof.
  induction all as [|a rest IH]; cbn; [constructor|].
  intros Hnd. inversion Hnd as [|? ? Ha Hnd']; subst.
  destruct (match pl with Some p => Hook.includes (Hook.achievements p) (Hook.ad_id a)
            | None => false end); [auto|].
  destruct (Hook.shouldUnlock pl st a); [|auto].
  constructor; [|auto].
  intros H. apply Ha. eapply HookFacts.unlock_loop_ids. exact H.
Qed.

Lemma check_some (pid : string) (all : list Hook.AchievementDef)
    (pl : option Hook.Player) (st : Hook.Stats) (ids : list string) :
  Hook.checkAndUnlockAchievements (Some pid) (Some all) pl st = Some ids ->
  ids = Hook.unlock_loop pl st all.
Proof. intros H. injection H as H. symmetry. exact H. Qed.

Ltac nodup_strings :=
  repeat (constructor; [cbn; intuition discriminate|]); constructor.

(** createOrUpdatePlayer, on a table of two players: a third user is
    inserted, and taking the name of another user's player fails. *)
Lemma createOrUpdatePlayer_unique_witness :
  createOrUpdatePlayer 5 "pl3" "u3" "Carol" sample_db =
    Ok "pl3"%string (set_players sample_db (players sample_db ++
      [("pl3"%string, mkPlayerDoc "u3" "Carol" 0 0 0 [] (mkPlayerStats 0 0 0 0 "basic") 5 5)])) /\
  createOrUpdatePlayer 5 "pl3" "u3" "Bob" sample_db = Err (NameTaken "Bob") /\
  (exists p, getPlayer "u3" (set_players sample_db (players sample_db ++
      [("pl3"%string, mkPlayerDoc "u3" "Carol" 0 0 0 [] (mkPlayerStats 0 0 0 0 "basic") 5 5)]))
     = Some ("pl3"%string, p) /\ pname p = "Carol"%string).
Proof.
  split; [reflexivity|]. split; [reflexivity|].
  pose proof (createOrUpdatePlayer_unique 5 "pl3" "u3" "Carol" sample_db) as H.
  cbn [createOrUpdatePlayer] in H.
  assert (Hnm : names_ok sample_db).
  { unfold names_ok. cbn.
    intros i j p q [Hp|[Hp|[]]] [Hq|[Hq|[]]] E; inversion Hp; inversion Hq; subst;
      cbn in *; congruence. }
  destruct H as (_ & _ & _ & Hg).
  - cbn. nodup_strings.
  - cbn. nodup_strings.
  - exact Hnm.
  - cbn. intuition discriminate.
  - exact Hg.
Defined.

(** checkNameAvailability agrees with createOrUpdatePlayer: the name is
    available to [uid] exactly when [createOrUpdatePlayer] for [uid] and
    that name succeeds (its only failure is the name check). *)
Theorem checkNameAvailability_iff (now : Z) (newId uid name : string) (db : Db) :
  checkNameAvailability name (Some uid) db = true <->
  exists r db', createOrUpdatePlayer now newId uid name db = Ok r db'.
Proof.
  unfold checkNameAvailability, createOrUpdatePlayer. cbv zeta.
  destruct (first_where (fun p => String.eqb (pname p) name) (players db))
    as [[ci c]|];
    [destruct (String.eqb (userId c) uid)|]; cbn [negb];
    destruct (first_where (fun p => String.eqb (userId p) uid) (players db))
      as [[pid pe]|];
    split; intros H; try discriminate H;
    try (destruct H as (? & ? & H); discriminate H); eauto.
Qed.

(** unlockAchievement: on an existing player it adds the id to the
    player's achievements when missing, so the list never gets a
    duplicate, no other player changes, and a second call with the same
    arguments changes nothing; on a missing player it fails. *)
Theorem unlockAchievement_idempotent (pid a : string) (db : Db) :
  match unlockAchievement pid a db with
  | Ok _ db' =>
      (exists p p', lookup pid (players db) = Some p /\
         lookup pid (players db') = Some p' /\
         (forall x, In x (pachievements p') <-> In x (pachievements p) \/ x = a) /\
         (NoDup (pachievements p) -> NoDup (pachievements p')) /\
         (forall k, k <> pid -> lookup k (players db') = lookup k (players db))) /\
      unlockAchievement pid a db' = Ok tt db'
  | Err e => e = PlayerNotFound /\ lookup pid (players db) = None
  end.
Proof.
  unfold unlockAchievement. destruct (lookup pid (players db)) as [p|] eqn:L; [|auto].
  destruct (Hook.includes (pachievements p) a) eqn:I.
  - split; [|rewrite L, I; reflexivity].
    apply includes_In in I. exists p, p. repeat split; auto.
    + intros [H| ->]; auto.
  - assert (Hn : ~ In a (pachievements p))
      by (intros H; apply includes_In in H; congruence).
    cbn [players set_players]. rewrite lookup_patch, L. cbn [option_map pachievements].
    split.
    + eexists p, _. split; [reflexivity|]. split; [reflexivity|]. cbn [pachievements].
      split; [intros x; rewrite in_app_iff; cbn; intuition|].
      split; [intros Hnd; apply ManagerOpsFacts.nodup_snoc; assumption|].
      intros k Hk. apply lookup_patch_other. exact Hk.
    + replace (Hook.includes (pachievements p ++ [a]) a) with true; [reflexivity|].
      symmetry. apply includes_In. apply in_or_app. right. left. reflexivity.
Qed.

(** updatePlayerStats: on an existing player, the high score becomes the
    maximum of the old one and the game's score, the longest combo the
    maximum of the old one and the game's combo, the totals, games played
    and play time accumulate, a non-zero chop time (negative ones too)
    replaces the best when that is 0 or larger, else the best is kept,
    and the identity, name and achievements are kept;
    no other player changes. On a missing player it fails. *)
Theorem updatePlayerStats_accumulates (now : Z) (pid : string)
    (score chops combo playTime : Z) (fc : option Z) (db : Db) :
  match updatePlayerStats now pid score chops combo playTime fc db with
  | Ok _ db' =>
      exists p p', lookup pid (players db) = Some p /\
        lookup pid (players db') = Some p' /\
        highScore p' = Z.max (highScore p) score /\
        totalScore p' = totalScore p + score /\
        ptotalChops p' = ptotalChops p + chops /\
        gamesPlayed (pstats p') = gamesPlayed (pstats p) + 1 /\
        ps_totalPlayTime (pstats p') = ps_totalPlayTime (pstats p) + playTime /\
        ps_longestCombo (pstats p') = Z.max (ps_longestCombo (pstats p)) combo /\
        (forall f, fc = Some f -> f <> 0 ->
           (ps_fastestChop (pstats p) = 0 \/ f < ps_fastestChop (pstats p)) ->
           ps_fastestChop (pstats p') = f) /\
        (forall f, fc = Some f ->
           (f = 0 \/ (ps_fastestChop (pstats p) <> 0 /\ ps_fastestChop (pstats p) <= f)) ->
           ps_fastestChop (pstats p') = ps_fastestChop (pstats p)) /\
        (fc = None -> ps_fastestChop (pstats p') = ps_fastestChop (pstats p)) /\
        userId p' = userId p /\ pname p' = pname p /\
        pachievements p' = pachievements p /\ lastPlayed p' = now /\
        (forall k, k <> pid -> lookup k (players db') = lookup k (players db))
  | Err e => e = PlayerNotFound /\ lookup pid (players db) = None
  end.
Proof.
  unfold updatePlayerStats. destruct (lookup pid (players db)) as [p|] eqn:L; [|auto].
  cbv zeta. cbn [players set_players]. rewrite lookup_patch, L. cbn [option_map].
  exists p. eexists. split; [reflexivity|]. split; [reflexivity|].
  cbn [highScore totalScore ptotalChops pstats gamesPlayed ps_totalPlayTime
       ps_longestCombo ps_fastestChop userId pname pachievements lastPlayed].
  repeat split.
  - destruct (Z.ltb_spec (highScore p) score); lia.
  - intros f -> Hf Ho.
    destruct (Z.eqb_spec f 0) as [|_]; [contradiction|].
    destruct (Z.eqb_spec (ps_fastestChop (pstats p)) 0); [reflexivity|]. cbn.
    destruct (Z.ltb_spec f (ps_fastestChop (pstats p))); [reflexivity|lia].
  - intros f -> Hf.
    destruct (Z.eqb_spec f 0) as [|N]; [reflexivity|]. cbn.
    destruct (Z.eqb_spec (ps_fastestChop (pstats p)) 0); [lia|]. cbn.
    destruct (Z.ltb_spec f (ps_fastestChop (pstats p))); [lia|reflexivity].
  - intros ->. reflexivity.
  - intros k Hk. apply lookup_patch_other. exact Hk.
Qed.

(** startGameSession never ends an open session: a player who already has
    an open session keeps getting the oldest one from getActiveSession,
    one who has none gets the new one; other players' active sessions,
    the existing sessions and the players are unchanged. *)
Theorem startGameSession_keeps_active (now : Z) (newId pid mode : string) (db : Db) :
  exists db', startGameSession now newId pid mode db = Ok newId db' /\
    getActiveSession pid db' =
      match getActiveSession pid db with
      | Some e => Some e
      | None => Some (newId, Sessions.mkSession pid 0 1 0 0 [] now None mode)
      end /\
    (forall q, q <> pid -> getActiveSession q db' = getActiveSession q db) /\
    (forall i, In i (map fst (sessions db)) ->
       lookup i (sessions db') = lookup i (sessions db)) /\
    players db' = players db.
Proof.
  eexists. split; [reflexivity|]. unfold getActiveSession.
  cbn [sessions set_sessions players].
  split; [|split; [|split; [|reflexivity]]].
  - destruct (first_where _ (sessions db)) eqn:F.
    + apply first_where_app_Some. exact F.
    + rewrite (first_where_app_None _ _ _ F). cbn. rewrite String.eqb_refl. reflexivity.
  - intros q Hq. destruct (first_where _ (sessions db)) eqn:F.
    + apply first_where_app_Some. exact F.
    + rewrite (first_where_app_None _ _ _ F). cbn.
      destruct (String.eqb_spec pid q); [congruence|reflexivity].
  - intros i Hi. apply lookup_app_In. exact Hi.
Qed.

(** endGameSession: it returns the session as read before it is ended;
    afterwards the session is ended at [now] and getActiveSession never
    returns it, players are unchanged, and exactly one leaderboard entry
    is appended with the session's score and best combo and the player's
    name. It fails on a missing session or a missing player. *)
Theorem endGameSession_closes (now : Z) (entryId sid : string) (db : Db) :
  match endGameSession now entryId sid db with
  | Ok sess db' =>
      lookup sid (sessions db) = Some sess /\
      (forall q, match getActiveSession q db' with
                 | Some (i, _) => i <> sid
                 | None => True
                 end) /\
      lookup sid (sessions db') =
        Some (Sessions.mkSession (Sessions.playerId sess) (Sessions.score sess)
                (Sessions.level sess) (Sessions.combo sess) (Sessions.maxCombo sess)
                (Sessions.powerUps sess) (Sessions.startedAt sess) (Some now)
                (Sessions.gameMode sess)) /\
      players db' = players db /\
      exists p, lookup (Sessions.playerId sess) (players db) = Some p /\
        leaderboard db' = leaderboard db ++
          [(entryId, mkEntry (Sessions.playerId sess) (pname p) (Sessions.score sess)
                       (Sessions.maxCombo sess) (Sessions.gameMode sess) now
                       (now / 604800000) (utc_month now))]
  | Err e =>
      (e = SessionNotFound /\ lookup sid (sessions db) = None) \/
      (e = PlayerNotFound /\ exists sess, lookup sid (sessions db) = Some sess /\
         lookup (Sessions.playerId sess) (players db) = None)
  end.
Proof.
  unfold endGameSession. destruct (lookup sid (sessions db)) as [sess|] eqn:L;
    [|left; auto].
  cbv zeta. cbn [players set_sessions set_leaderboard sessions leaderboard].
  destruct (lookup (Sessions.playerId sess) (players db)) as [p|] eqn:Lp;
    [|right; eauto].
  split; [reflexivity|]. split.
  - intros q. unfold getActiveSession. cbn [sessions set_leaderboard set_sessions].
    destruct (first_where _ _) as [[i s]|] eqn:F; [|exact I].
    apply first_where_In in F as [Hin Ht]. intros ->.
    apply In_patch_fst in Hin as [d0 ->]; [|reflexivity].
    cbn in Ht. rewrite andb_false_r in Ht. discriminate Ht.
  - cbn [sessions set_leaderboard set_sessions players leaderboard].
    split; [rewrite lookup_patch, L; reflexivity|].
    split; [reflexivity|]. exists p. split; [exact Lp|reflexivity].
Qed.

(** initializeAchievements seeds the table once: a second run changes
    nothing, a non-empty table is left as it is, an empty one receives
    the 12 catalogue achievements, whose ids are distinct; the other
    tables are untouched. *)
Theorem initializeAchievements_once (db : Db) :
  initializeAchievements (initializeAchievements db) = initializeAchievements db /\
  (achievementsTable db <> [] -> initializeAchievements db = db) /\
  (achievementsTable db = [] ->
     getAllAchievements (initializeAchievements db) = catalogue) /\
  NoDup (map doc_id catalogue) /\ List.length catalogue = 12%nat /\
  players (initializeAchievements db) = players db /\
  sessions (initializeAchievements db) = sessions db.
Proof.
  unfold initializeAchievements.
  destruct (achievementsTable db) as [|d r] eqn:E.
  - cbn. repeat split; try reflexivity; [congruence|nodup_strings].
  - rewrite E. repeat split; try reflexivity; [discriminate|nodup_strings].
Qed.

(** The hook's evaluation ([checkAndUnlockAchievements], with the
    catalogue that [initializeAchievements] seeds) never unlocks First
    Swing, Power User or Survivor: their requirement types [chops],
    [power_ups_used] and [survival_time] have no case in its [switch]. *)
Theorem catalogue_never_unlocks (pid : string) (pl : option Hook.Player)
    (st : Hook.Stats) (ids : list string)
    (H : Hook.checkAndUnlockAchievements (Some pid) (Some (map to_def catalogue)) pl st
         = Some ids) :
  ~ In "first_chop"%string ids /\ ~ In "power_user"%string ids /\
  ~ In "survivor"%string ids.
Proof.
  apply check_some in H. subst ids.
  split; [|split]; intros Hin;
    destruct (unlock_loop_sound _ _ _ _ Hin) as (a & Ha & Hid & Hs & _);
    unfold catalogue in Ha; cbn [map In] in Ha;
    repeat (destruct Ha as [<- | Ha]; [cbn in Hid, Hs; discriminate|]);
    destruct Ha.
Qed.

(** With every stat high and no player record, the catalogue gives all
    achievements but those three. *)
Lemma catalogue_never_unlocks_witness :
  Hook.checkAndUnlockAchievements (Some "pl1"%string) (Some (map to_def catalogue))
    None (Hook.mkStats 100000 100 100 (Some 1)) =
    Some ["combo_apprentice"; "combo_master"; "combo_legend"; "century_club";
          "score_rookie"; "score_pro"; "score_legend"; "speed_demon"]%string /\
  ~ In "first_chop"%string
      ["combo_apprentice"; "combo_master"; "combo_legend"; "century_club";
       "score_rookie"; "score_pro"; "score_legend"; "speed_demon"]%string /\
  ~ In "power_user"%string
      ["combo_apprentice"; "combo_master"; "combo_legend"; "century_club";
       "score_rookie"; "score_pro"; "score_legend"; "speed_demon"]%string /\
  ~ In "survivor"%string
      ["combo_apprentice"; "combo_master"; "combo_legend"; "century_club";
       "score_rookie"; "score_pro"; "score_legend"; "speed_demon"]%string.
Proof.
  assert (E : Hook.checkAndUnlockAchievements (Some "pl1"%string)
                (Some (map to_def catalogue)) None (Hook.mkStats 100000 100 100 (Some 1)) =
              Some ["combo_apprentice"; "combo_master"; "combo_legend"; "century_club";
                    "score_rookie"; "score_pro"; "score_legend"; "speed_demon"]%string)
    by (vm_compute; reflexivity).
  split; [exact E|].
  exact (catalogue_never_unlocks _ _ _ _ E).
Defined.

(** The hook's evaluation for a known player returns only catalogue ids
    the player does not have yet, each once when the catalogue ids are
    distinct. *)
Theorem checkAndUnlock_fresh (pid : string) (all : list Hook.AchievementDef)
    (p : Hook.Player) (st : Hook.Stats) (ids : list string)
    (H : Hook.checkAndUnlockAchievements (Some pid) (Some all) (Some p) st = Some ids) :
  (forall x, In x ids -> ~ In x (Hook.achievements p) /\ In x (map Hook.ad_id all)) /\
  (NoDup (map Hook.ad_id all) -> NoDup ids).
Proof.
  apply check_some in H. subst ids.
  split.
  - intros x Hx. split.
    + apply unlock_loop_sound in Hx as (a & _ & _ & _ & Hn).
      intros Hin. apply includes_In in Hin. congruence.
    + eapply HookFacts.unlock_loop_ids. exact Hx.
  - apply unlock_loop_nodup.
Qed.

(** A player who holds Combo Apprentice gets the other high-stat
    achievements of the catalogue, not that one. *)
Lemma checkAndUnlock_fresh_witness :
  Hook.checkAndUnlockAchievements (Some "pl1"%string) (Some (map to_def catalogue))
    (Some (Hook.mkPlayer ["combo_apprentice"%string] 0))
    (Hook.mkStats 100000 100 100 (Some 1)) =
    Some ["combo_master"; "combo_legend"; "century_club";
          "score_rookie"; "score_pro"; "score_legend"; "speed_demon"]%string /\
  ~ In "combo_apprentice"%string
      ["combo_master"; "combo_legend"; "century_club";
       "score_rookie"; "score_pro"; "score_legend"; "speed_demon"]%string /\
  NoDup ["combo_master"; "combo_legend"; "century_club";
         "score_rookie"; "score_pro"; "score_legend"; "speed_demon"]%string.
Proof.
  assert (E : Hook.checkAndUnlockAchievements (Some "pl1"%string)
                (Some (map to_def catalogue))
                (Some (Hook.mkPlayer ["combo_apprentice"%string] 0))
                (Hook.mkStats 100000 100 100 (Some 1)) =
              Some ["combo_master"; "combo_legend"; "century_club";
                    "score_rookie"; "score_pro"; "score_legend"; "speed_demon"]%string)
    by (vm_compute; reflexivity).
  split; [exact E|].
  destruct (checkAndUnlock_fresh _ _ _ _ _ E) as [Hf Hn]. split.
  - intros Hin. apply (proj1 (Hf _ Hin)). left. reflexivity.
  - apply Hn. vm_compute. nodup_strings.
Defined.

End ConvexFacts.

(* ================================================================= *)
(** ** Frames, spawning and the score of the canvas scene *)

Module CanvasOpsFacts.

Import Canvas CanvasOps.

Lemma firstn_prefix {A} (p q : list A) (n : nat) :
  List.length p = n -> firstn n (p ++ q) = p.
Proof.
  intros <-. induction p as [|a p IH]; cbn; [reflexivity|]. rewrite IH. reflexivity.
Qed.

Lemma skipn_prefix {A} (p q : list A) (n : nat) :
  List.length p = n -> skipn n (p ++ q) = q.
Proof. intros <-. induction p as [|a p IH]; cbn; [reflexivity|exact IH]. Qed.

Lemma firstn_snoc_nth {A} (ls : list A) (j : nat) (l : A) :
  nth_error ls j = Some l -> firstn (S j) ls = firstn j ls ++ [l].
Proof.
  revert ls. induction j as [|j IH]; intros [|a ls] E; cbn in E; try discriminate.
  - injection E as ->. reflexivity.
  - change (a :: firstn (S j) ls = (a :: firstn j ls) ++ [l]).
    rewrite (IH ls E). reflexivity.
Qed.

Lemma skipn_nth {A} (ls : list A) (j : nat) (l : A) :
  nth_error ls j = Some l -> skipn j ls = l :: skipn (S j) ls.
Proof.
  revert ls. induction j as [|j IH]; intros [|a ls] E; cbn in E; try discriminate.
  - injection E as ->. reflexivity.
  - exact (IH ls E).
Qed.

Lemma in_remove_at {A} (j : nat) (x : A) (l : list A) :
  In x (remove_at j l) -> In x l.
Proof.
  unfold remove_at. intros H. rewrite <- (firstn_skipn j l).
  apply in_app_or in H as [H|H]; apply in_or_app; [left; exact H|].
  right. rewrite <- (firstn_skipn 1 (skipn j l)). apply in_or_app. right.
  rewrite skipn_skipn. replace (1 + j)%nat with (S j) by lia. exact H.
Qed.

(** The fall loop over the first [i] logs, scanned from index [i - 1]
    down: those logs are moved and the off-screen ones dropped. *)
Lemma fall_loop_prefix (delta h : Z) (i : nat) (cb : Z) (ls : list LogObject) :
  (i <= List.length ls)%nat ->
  fall_loop delta h i cb ls =
    (if existsb (off_screen delta h) (firstn i ls) then 0 else cb,
     map (fallen delta) (filter (fun l => negb (off_screen delta h l)) (firstn i ls))
       ++ skipn i ls).
Proof.
  revert cb ls. induction i as [|j IH]; intros cb ls Hi; [reflexivity|].
  cbn [fall_loop]. destruct (nth_error ls j) as [l|] eqn:E;
    [|apply nth_error_None in E; lia].
  assert (Hj : (j < List.length ls)%nat) by (apply nth_error_Some; congruence).
  assert (Hf : List.length (firstn j ls) = j) by (rewrite length_firstn; lia).
  rewrite (firstn_snoc_nth _ _ _ E), existsb_app, filter_app, map_app.
  change (Qltb (inject_Z (h + 50))
            (y (with_y l (y l + inject_Z (fallSpeed l * delta) / inject_Z 1000))))
    with (off_screen delta h l).
  change (with_y l (y l + inject_Z (fallSpeed l * delta) / inject_Z 1000))
    with (fallen delta l).
  destruct (off_screen delta h l) eqn:O; cbn [existsb filter negb map].
  - rewrite IH.
    + unfold remove_at. rewrite (firstn_prefix _ _ _ Hf), (skipn_prefix _ _ _ Hf).
      rewrite O. cbn [orb negb map]. rewrite orb_true_r, app_nil_r.
      destruct (existsb _ _); reflexivity.
    + unfold remove_at. rewrite length_app, length_firstn, length_skipn. lia.
  - rewrite IH.
    + unfold replace_at. rewrite (firstn_prefix _ _ _ Hf), (skipn_prefix _ _ _ Hf).
      rewrite O. cbn [orb negb map]. rewrite orb_false_r, <- app_assoc. reflexivity.
    + unfold replace_at. rewrite length_app, length_firstn. cbn [List.length].
      rewrite length_skipn. lia.
Qed.

Lemma fall_loop_all (delta h cb : Z) (ls : list LogObject) :
  fall_loop delta h (List.length ls) cb ls =
    (if existsb (off_screen delta h) ls then 0 else cb,
     map (fallen delta) (filter (fun l => negb (off_screen delta h l)) ls)).
Proof.
  rewrite fall_loop_prefix by lia.
  rewrite firstn_all, skipn_all, app_nil_r. reflexivity.
Qed.

Lemma update_running_logs (d h : Z) (sp : LogObject) (s : Scene) :
  exists ls, (ls = logs s \/ ls = logs s ++ [sp]) /\
    logs (update_running d h sp s) =
      map (fallen d) (filter (fun l => negb (off_screen d h l)) ls) /\
    combo (update_running d h sp s) =
      (if existsb (off_screen d h) ls then 0 else combo s) /\
    score (update_running d h sp s) = score s.
Proof.
  unfold update_running.
  destruct (level s <? (gameTime s + d) / 30000 + 1);
    [destruct (Z.max 500 (2000 - ((gameTime s + d) / 30000 + 1) * 100)
                 <? logSpawnTimer s + d)
    |destruct (logSpawnRate s <? logSpawnTimer s + d)];
    cbv beta iota zeta; rewrite fall_loop_all; cbv beta iota zeta;
    cbn [logs combo score];
    first [solve [exists (logs s ++ [sp]); split; [right; reflexivity|repeat split]]
          |solve [exists (logs s); split; [left; reflexivity|repeat split]]].
Qed.

Lemma update_pause_scene (p : bool) (now : Z) (s : Scene) :
  score (update_pause p now s) = score s /\ combo (update_pause p now s) = combo s /\
  logs (update_pause p now s) = logs s /\ level (update_pause p now s) = level s /\
  logSpawnRate (update_pause p now s) = logSpawnRate s.
Proof.
  unfold update_pause.
  destruct (p && (pauseStartTime s =? 0)); [repeat split|].
  destruct (negb p && (0 <? pauseStartTime s)); repeat split.
Qed.

(** A frame never changes the score. A paused frame keeps the logs and
    the combo. A running frame moves every log (the existing ones, plus
    the spawned one when the spawn timer fires) down by
    [fallSpeed * delta / 1000], drops exactly those that end up more than
    50 pixels below the screen, keeps the others in order, and resets the
    combo exactly when it drops one. *)
Theorem update_moves_and_drops_logs (p : bool) (now d h : Z) (sp : LogObject)
    (s : Scene) :
  score (update p now d h sp s) = score s /\
  (p = true -> logs (update p now d h sp s) = logs s /\
               combo (update p now d h sp s) = combo s) /\
  (p = false ->
   exists ls, (ls = logs s \/ ls = logs s ++ [sp]) /\
     logs (update p now d h sp s) =
       map (fallen d) (filter (fun l => negb (off_screen d h l)) ls) /\
     combo (update p now d h sp s) =
       (if existsb (off_screen d h) ls then 0 else combo s)).
Proof.
  unfold update.
  destruct (update_pause_scene p now s) as (Sc & Cb & Lg & _).
  destruct p.
  - rewrite Sc, Cb, Lg. split; [reflexivity|]. split; [auto|discriminate].
  - destruct (update_running_logs d h sp (update_pause false now s))
      as (ls & Hls & L & C & S).
    rewrite S, Sc. split; [reflexivity|]. split; [discriminate|].
    intros _. exists ls. rewrite Lg in Hls. rewrite Cb in C. auto.
Qed.

Lemma step_rate (e : Event) (w : Scene * GameStats) :
  1 <= level (fst w) -> logSpawnRate (fst w) = rate_of_level (level (fst w)) ->
  1 <= level (fst (step e w)) /\
  logSpawnRate (fst (step e w)) = rate_of_level (level (fst (step e w))).
Proof.
  destruct w as [s st]. cbn [fst]. intros Hl Hr.
  destruct e as [p now d h sp|p px py]; cbn [step fst].
  - unfold update.
    destruct (update_pause_scene p now s) as (_ & _ & _ & Lv & Rt).
    destruct p; [rewrite Lv, Rt; auto|].
    set (s1 := update_pause false now s) in *.
    unfold update_running.
    destruct (Z.ltb_spec (level s1) ((gameTime s1 + d) / 30000 + 1)) as [Hlt|Hge];
      (destruct (_ <? logSpawnTimer s1 + d);
       destruct (fall_loop _ _ _ _ _); cbn [level logSpawnRate]).
    1,2: split; [lia|]; unfold rate_of_level;
         rewrite (proj2 (Z.eqb_neq _ 1)) by lia; reflexivity.
    1,2: rewrite Lv, Rt; auto.
  - unfold chopAtPosition. destruct p; [auto|].
    destruct (find_hit (logs s) px py) as [j|]; [|cbn; auto].
    destruct (nth_error (logs s) j) as [l|]; [|auto].
    unfold hit_log. cbn [hitsRemaining with_hits].
    destruct (hitsRemaining l - 1 <=? 0); [|cbn; auto].
    destruct (is_error (logType l)); cbn; auto.
Qed.

(** The spawn interval follows the level: from a scene at level 1 or more
    whose interval is the one of its level (as after [resetGame] or at
    start: level 1, 2000 ms), every sequence of frames and clicks keeps
    the interval at 2000 ms on level 1 and at [max(500, 2000 - 100 *
    level)] above, so always between 500 and 2000 ms. *)
Theorem spawn_rate_follows_level (es : list Event) (w : Scene * GameStats)
    (Hl : 1 <= level (fst w))
    (Hr : logSpawnRate (fst w) = rate_of_level (level (fst w))) :
  1 <= level (fst (run es w)) /\
  logSpawnRate (fst (run es w)) = rate_of_level (level (fst (run es w))) /\
  500 <= logSpawnRate (fst (run es w)) <= 2000.
Proof.
  revert w Hl Hr. induction es as [|e es IH]; intros w Hl Hr.
  - cbn [run]. split; [exact Hl|]. split; [exact Hr|].
    rewrite Hr. unfold rate_of_level. destruct (Z.eqb_spec (level (fst w)) 1); lia.
  - cbn [run]. destruct (step_rate e w Hl Hr). apply IH; assumption.
Qed.

(** A minute of frames from a reset scene reaches level 3 and a 1700 ms
    interval. *)
Lemma spawn_rate_follows_level_witness :
  let w := run [Tick false 0 30000 600 (plain_log 2 50 100 (-50));
                Tick false 0 30000 600 (plain_log 2 50 100 (-50))]
             (resetGame 0 initialScene, no_stats) in
  level (fst w) = 3 /\ logSpawnRate (fst w) = 1700 /\
  (1 <= level (fst w) /\
   logSpawnRate (fst w) = rate_of_level (level (fst w)) /\
   500 <= logSpawnRate (fst w) <= 2000).
Proof.
  cbv zeta. split; [reflexivity|]. split; [reflexivity|].
  apply spawn_rate_follows_level; cbn; [lia|reflexivity].
Defined.

Lemma spawnLog_wf (lv : Z) (r : Q) (px v : Z) : wf_log (spawnLog lv r px v).
Proof.
  unfold wf_log, spawnLog.
  destruct (Qltb r (2 # 100)); [discriminate|].
  destruct (Qltb r (7 # 100)); [cbn; lia|].
  destruct (Qltb r _); cbn; lia.
Qed.

Lemma multiplier_pos (c : Z) : 1 <= multiplier c.
Proof. unfold multiplier. lia. Qed.

Lemma step_score_inv (e : Event) (w : Scene * GameStats) :
  spawned_by_spawnLog e -> score_inv w -> score_inv (step e w).
Proof.
  destruct w as [s st]. unfold score_inv. cbn [fst]. intros He [Hs Hw].
  rewrite Forall_forall in Hw.
  destruct e as [p now d h sp|p px py]; cbn [step fst].
  - destruct (update_moves_and_drops_logs p now d h sp s) as (Sc & Pz & Rn).
    rewrite Sc. split; [exact Hs|].
    destruct p.
    + rewrite (proj1 (Pz eq_refl)). apply Forall_forall. exact Hw.
    + destruct (Rn eq_refl) as (ls & Hls & L & _). rewrite L.
      apply Forall_forall. intros x Hx.
      apply in_map_iff in Hx as (l & <- & Hx). apply filter_In in Hx as [Hx _].
      assert (Hl : wf_log l).
      { destruct Hls as [->| ->]; [exact (Hw l Hx)|].
        apply in_app_or in Hx as [Hx|[<-|[]]]; [exact (Hw l Hx)|].
        destruct He as (lv & r & q & v & ->). apply spawnLog_wf. }
      exact Hl.
  - unfold chopAtPosition. destruct p; [split; [exact Hs|apply Forall_forall; exact Hw]|].
    destruct (find_hit (logs s) px py) as [j|];
      [|cbn; split; [exact Hs|apply Forall_forall; exact Hw]].
    destruct (nth_error (logs s) j) as [l|] eqn:N;
      [|split; [exact Hs|apply Forall_forall; exact Hw]].
    assert (Hl : wf_log l) by (apply Hw; eapply nth_error_In; exact N).
    unfold hit_log. cbn [hitsRemaining with_hits].
    destruct (hitsRemaining l - 1 <=? 0).
    + destruct (is_error (logType l)) eqn:Et; cbn [fst score logs set_logs set_score_combo];
        (split; [|apply Forall_forall; intros x Hx; apply in_remove_at in Hx; exact (Hw x Hx)]).
      * lia.
      * pose proof (Hl Et). pose proof (multiplier_pos (combo s + 1)). nia.
    + cbn [fst score logs set_logs]. split; [exact Hs|].
      apply Forall_forall. intros x Hx.
      apply ManagerOpsFacts.in_replace_at in Hx as [->|Hx]; [exact Hl|exact (Hw x Hx)].
Qed.

(** The canvas score is never negative: from [resetGame], after any
    sequence of frames and clicks whose spawned logs come from [spawnLog]
    (only error logs have negative points, and destroying one clamps the
    score at 0), the score is at least 0. *)
Theorem score_never_negative (es : list Event) (now : Z) (s : Scene) (st : GameStats)
    (Hes : Forall spawned_by_spawnLog es) :
  0 <= score (fst (run es (resetGame now s, st))).
Proof.
  assert (H0 : score_inv (resetGame now s, st)) by (split; [cbn; lia|constructor]).
  revert H0. generalize (resetGame now s, st) as w.
  induction Hes as [|e es He Hes IH]; intros w Hw; [exact (proj1 Hw)|].
  cbn [run]. apply IH. apply step_score_inv; assumption.
Qed.

(** An error log spawned and destroyed at score 0 leaves the score at 0. *)
Lemma score_never_negative_witness :
  score (fst (run [Tick false 0 2500 600 (spawnLog 1 (1 # 100) 100 100);
                   Click false 100 50]
                  (resetGame 0 initialScene, no_stats))) = 0 /\
  0 <= score (fst (run [Tick false 0 2500 600 (spawnLog 1 (1 # 100) 100 100);
                        Click false 100 50]
                       (resetGame 0 initialScene, no_stats))).
Proof.
  split; [reflexivity|].
  apply score_never_negative.
  repeat constructor. exists 1, (1 # 100), 100, 100. reflexivity.
Defined.

End CanvasOpsFacts.

(* ================================================================= *)
(** ** The hook's sequences of Convex mutations *)

Module ConvexHookFacts.

Import Convex ConvexHook ConvexFacts.

Lemma unlock_each_appends (pid : string) (ids : list string) (db : Db) (p : PlayerDoc) :
  lookup pid (players db) = Some p -> NoDup ids ->
  (forall x, In x ids -> ~ In x (pachievements p)) ->
  exists db', unlock_each pid ids db = (db', None) /\
    exists p', lookup pid (players db') = Some p' /\
      pachievements p' = pachievements p ++ ids /\
      (forall k, k <> pid -> lookup k (players db') = lookup k (players db)).
Proof.
  revert db p. induction ids as [|a r IH]; intros db p Hp Hnd Hfr.
  - exists db. split; [reflexivity|]. exists p. rewrite app_nil_r. auto.
  - inversion Hnd as [|? ? Ha Hnd']; subst.
    cbn [unlock_each]. unfold unlockAchievement. rewrite Hp. cbv beta iota.
    destruct (Hook.includes (pachievements p) a) eqn:I.
    { apply includes_In in I. exfalso. exact (Hfr a (or_introl eq_refl) I). }
    set (db1 := set_players db _).
    assert (Hp1 : lookup pid (players db1) =
                  Some (mkPlayerDoc (userId p) (pname p) (highScore p) (totalScore p)
                          (ptotalChops p) (pachievements p ++ [a]) (pstats p)
                          (createdAt p) (lastPlayed p)))
      by (unfold db1; cbn [players set_players]; rewrite lookup_patch, Hp; reflexivity).
    destruct (IH db1 _ Hp1 Hnd') as (db' & E & p' & Hp' & Ha' & Ho).
    { intros x Hx. cbn [pachievements]. rewrite in_app_iff. intros [H|[<-|[]]].
      - exact (Hfr x (or_intror Hx) H).
      - exact (Ha Hx). }
    exists db'. split; [exact E|]. exists p'. split; [exact Hp'|].
    split; [rewrite Ha'; cbn [pachievements]; rewrite <- app_assoc; reflexivity|].
    intros k Hk. rewrite (Ho k Hk). unfold db1. cbn [players set_players].
    apply lookup_patch_other. exact Hk.
Qed.

(** checkAndUnlockAchievements with its [unlockAchievement] calls: for a
    player whose loaded record agrees with the stored one, a catalogue
    with distinct ids and a stored list without duplicates, every call
    succeeds, the stored list becomes the old one followed by the
    unlocked ids, it still has no duplicates, and no other player
    changes. *)
Theorem hook_unlock_appends (pid : string) (all : list Hook.AchievementDef)
    (ph : Hook.Player) (st : Hook.Stats) (ids : list string) (db : Db) (p : PlayerDoc)
    (Hc : Hook.checkAndUnlockAchievements (Some pid) (Some all) (Some ph) st = Some ids)
    (Hp : lookup pid (players db) = Some p)
    (Hsync : Hook.achievements ph = pachievements p)
    (Hnd : NoDup (map Hook.ad_id all))
    (Hpn : NoDup (pachievements p)) :
  exists db', unlock_each pid ids db = (db', None) /\
    exists p', lookup pid (players db') = Some p' /\
      pachievements p' = pachievements p ++ ids /\
      NoDup (pachievements p') /\
      (forall k, k <> pid -> lookup k (players db') = lookup k (players db)).
Proof.
  apply check_some in Hc. subst ids.
  assert (Hfr : forall x, In x (Hook.unlock_loop (Some ph) st all) ->
                ~ In x (pachievements p)).
  { intros x Hx. destruct (unlock_loop_sound _ _ _ _ Hx) as (_ & _ & _ & _ & Hn).
    rewrite Hsync in Hn. intros Hin. apply includes_In in Hin. congruence. }
  pose proof (unlock_loop_nodup (Some ph) st all Hnd) as Hids.
  destruct (unlock_each_appends pid _ db p Hp Hids Hfr) as (db' & E & p' & Hp' & Ha & Ho).
  exists db'. split; [exact E|]. exists p'. split; [exact Hp'|].
  split; [exact Ha|]. split; [|exact Ho].
  rewrite Ha. apply NoDup_app; [exact Hpn|exact Hids|].
  intros x Hx Hy. exact (Hfr x Hy Hx).
Qed.

(** Everything of the catalogue a fresh player earns with high stats is
    appended, in catalogue order. *)
Lemma hook_unlock_appends_witness :
  exists db', unlock_each "pl1"
    ["combo_apprentice"; "combo_master"; "combo_legend"; "century_club";
     "score_rookie"; "score_pro"; "score_legend"; "speed_demon"]%string sample_db
    = (db', None) /\
    exists p', lookup "pl1" (players db') = Some p' /\
      pachievements p' = [] ++
        ["combo_apprentice"; "combo_master"; "combo_legend"; "century_club";
         "score_rookie"; "score_pro"; "score_legend"; "speed_demon"]%string /\
      NoDup (pachievements p') /\
      (forall k, k <> "pl1"%string -> lookup k (players db') = lookup k (players sample_db)).
Proof.
  apply (hook_unlock_appends "pl1" (map to_def catalogue) (Hook.mkPlayer [] 0)
           (Hook.mkStats 100000 100 100 (Some 1)) _ sample_db
           (sample_player_doc "u1" "Alice")).
  - vm_compute. reflexivity.
  - reflexivity.
  - reflexivity.
  - vm_compute. nodup_strings.
  - constructor.
Defined.

(** endGame with the session's own player: either the player is missing,
    [endGameSession] throws and nothing changes, or both mutations
    succeed: the session is ended at [now1], one leaderboard entry is
    appended for it, and the player's high score and lifetime chops are
    updated (a missing [chops] counts 0). *)
Theorem endGame_all_or_nothing (now1 now2 : Z) (entryId sid pid : string)
    (score maxCombo : Z) (chops playTime fc : option Z) (db : Db)
    (sess : Sessions.GameSession)
    (Hs : lookup sid (sessions db) = Some sess)
    (Hpid : Sessions.playerId sess = pid) :
  let r := endGame now1 now2 entryId (Some sid) (Some pid) score maxCombo chops
             playTime fc db in
  (snd r = Some PlayerNotFound /\ fst r = db /\ lookup pid (players db) = None) \/
  (snd r = None /\
   exists p p', lookup pid (players db) = Some p /\
     lookup pid (players (fst r)) = Some p' /\
     highScore p' = Z.max (highScore p) score /\
     ptotalChops p' = ptotalChops p + or_zero chops /\
     option_map Sessions.endedAt (lookup sid (sessions (fst r))) = Some (Some now1) /\
     leaderboard (fst r) = leaderboard db ++
       [(entryId, mkEntry pid (pname p) (Sessions.score sess) (Sessions.maxCombo sess)
                    (Sessions.gameMode sess) now1 (now1 / 604800000) (utc_month now1))]).
Proof.
  cbv zeta. unfold endGame, endGameSession. rewrite Hs. cbv beta iota zeta.
  cbn [players set_sessions]. rewrite Hpid.
  destruct (lookup pid (players db)) as [p|] eqn:Lp.
  - right. unfold updatePlayerStats. cbn [players set_leaderboard set_sessions].
    rewrite Lp. cbv beta iota zeta. cbn [fst snd]. split; [reflexivity|].
    exists p. eexists. split; [reflexivity|].
    cbn [players sessions leaderboard set_players set_leaderboard set_sessions].
    split; [rewrite lookup_patch, Lp; reflexivity|].
    cbn [highScore ptotalChops]. split; [destruct (Z.ltb_spec (highScore p) score); lia|].
    split; [reflexivity|].
    split; [rewrite lookup_patch, Hs; reflexivity|reflexivity].
  - left. cbn. auto.
Qed.

(** The sample session of the sample player ends with 700 points on the
    leaderboard and a high score of 700. *)
Lemma endGame_all_or_nothing_witness :
  let r := endGame 5000 6000 "lb1" (Some "gs1"%string) (Some "pl1"%string) 700 9
             (Some 30) (Some 4000) None sample_db in
  snd r = None /\
  ((snd r = Some PlayerNotFound /\ fst r = sample_db /\
    lookup "pl1" (players sample_db) = None) \/
   (snd r = None /\
    exists p p', lookup "pl1" (players sample_db) = Some p /\
      lookup "pl1" (players (fst r)) = Some p' /\
      highScore p' = Z.max (highScore p) 700 /\
      ptotalChops p' = ptotalChops p + or_zero (Some 30) /\
      option_map Sessions.endedAt (lookup "gs1" (sessions (fst r))) = Some (Some 5000) /\
      leaderboard (fst r) = leaderboard sample_db ++
        [("lb1"%string, mkEntry "pl1" (pname p) 700 9 "classic" 5000 (5000 / 604800000)
                          (utc_month 5000))])).
Proof.
  cbv zeta. split; [reflexivity|].
  exact (endGame_all_or_nothing 5000 6000 "lb1" "gs1" "pl1" 700 9 (Some 30) (Some 4000)
           None sample_db (Sessions.mkSession "pl1" 700 2 3 9 [] 1000 None "classic")
           eq_refl eq_refl).
Defined.

End ConvexHookFacts.

(* ================================================================= *)
(** ** The leaderboard queries *)

Module LeaderboardFacts.

Import Convex Leaderboard ConvexFacts.







Lemma sorted_firstn (n : nat) (l : list LeaderboardEntry) :
  Sorted desc l -> Sorted desc (firstn n l).
Proof.
  revert n. induction l as [|x l IH]; intros [|n] H; cbn; [constructor|constructor|constructor|].
  inversion H as [|? ? Hl Hx]; subst.
  constructor; [exact (IH n Hl)|].
  destruct l as [|y l]; destruct n; cbn; constructor. inversion Hx; assumption.
Qed.

Lemma nodup_firstn {A} (n : nat) (l : list A) : NoDup l -> NoDup (firstn n l).
Proof.
  intros H. rewrite <- (firstn_skipn n l) in H. exact (NoDup_app_remove_r _ _ H).
Qed.












(** A player whose high score is at least another's gets a rank no worse
    than that player's; ranks start at 1, and a player whose high score
    reaches every stored score is ranked 1. *)
Theorem getPlayerRank_order (pid1 pid2 : string) (gm : option string) (db : Db)
    (r1 h1 r2 h2 : Z) (n1 n2 : string)
    (H1 : getPlayerRank pid1 gm db = Some (r1, h1, n1))
    (H2 : getPlayerRank pid2 gm db = Some (r2, h2, n2))
    (Hle : h1 <= h2) :
  1 <= r2 <= r1 /\
  ((forall e, In e (map snd (leaderboard db)) -> lb_score e <= h2) -> r2 = 1).
Proof.
  unfold getPlayerRank in H1, H2.
  destruct (lookup pid1 (players db)) as [p1|]; [|discriminate].
  destruct (lookup pid2 (players db)) as [p2|]; [|discriminate].
  injection H1 as <- <- _. injection H2 as <- <- _.
  split.
  - split; [lia|]. apply Zplus_le_compat_r. apply Nat2Z.inj_le.
    apply NoDup_incl_length; [apply NoDup_nodup|].
    intros k Hk. apply nodup_In in Hk. apply nodup_In.
    apply in_map_iff in Hk as (e & <- & He). apply in_map.
    apply filter_In in He as [He B]. apply filter_In. split; [exact He|].
    apply andb_true_iff in B as [B1 B2]. apply Z.ltb_lt in B2.
    rewrite B1. apply Z.ltb_lt. lia.
  - intros Hall.
    induction (map snd (leaderboard db)) as [|e l IH]; [reflexivity|].
    cbn [filter]. destruct (Z.ltb_spec (highScore p2) (lb_score e)) as [Lt|_].
    + specialize (Hall e (or_introl eq_refl)). lia.
    + rewrite andb_false_r. apply IH. intros e' He'. apply Hall. right. exact He'.
Qed.

Lemma getPlayerRank_order_witness :
  getPlayerRank "pl2" None board_db = Some (2, 500, "Bob"%string) /\
  getPlayerRank "pl1" None board_db = Some (1, 800, "Alice"%string) /\
  1 <= 1 <= 2 /\
  ((forall e, In e (map snd (leaderboard board_db)) -> lb_score e <= 800) -> 1 = 1).
Proof.
  split; [reflexivity|]. split; [reflexivity|].
  apply (getPlayerRank_order "pl2" "pl1" None board_db 2 500 1 800 "Bob" "Alice");
    [reflexivity|reflexivity|lia].
Defined.

End LeaderboardFacts.
